(** * async_cog.cog: the TIFF / BigTIFF metadata reader

    A shallow embedding of [src/async_cog/cog.py] (class [COGReader]) and of
    the part of Python's [struct] module it calls, followed by the properties
    of the header decoder, the tag decoder, the directory decoder and the
    directory chain walker.

    Conventions.
    - Python [int] is [Z]; [bytes] is [list byte].
    - A [struct] format string is kept as its parsed form: an optional
      byte-order character and a list of (repeat count, format character)
      items, so ["<HH2I"] is [Format (Some Little) [(1,c_H);(1,c_H);(2,c_I)]]
      and a format string without a leading order character (native mode) has
      order [None].
    - [struct] refuses a format that describes more than [PY_SSIZE_T_MAX]
      bytes, and no [bytes] object is longer than that: the bound is part of
      [calcsize], [unpack] and [pack], and of what a transport may answer.
    - Exceptions are values of [exn]; a method that only reads [self] returns
      an [outcome], a method that assigns attributes or talks to the network
      is a state transformer over the [COGReader] object.
    - The [while] loop of [_read_idfs] has no bound in the source, so its
      embedding takes a fuel argument and answers [OutOfFuel] when it runs
      out. *)

From Stdlib Require Import String.
From Stdlib Require Import ZArith List Lia Bool.
From coqutil Require Import Byte Word.LittleEndianList.
Import ListNotations.
Local Open Scope Z_scope.

Definition bytes : Type := list byte.

(** ** Exceptions and outcomes *)

Inductive exn : Type :=
| AssertionError
| ValueError (msg : string)
| TypeError
| AttributeError
| RuntimeError
| StructError      (* struct.error *)
| ClientError.     (* aiohttp.ClientError: the request could not be performed *)

Inductive outcome (A : Type) : Type :=
| Ok (a : A)
| Raise (e : exn)
| OutOfFuel.

Arguments Ok {A} a.
Arguments Raise {A} e.
Arguments OutOfFuel {A}.

Definition obind {A B} (m : outcome A) (k : A -> outcome B) : outcome B :=
  match m with
  | Ok a => k a
  | Raise e => Raise e
  | OutOfFuel => OutOfFuel
  end.

Notation "x <-- m ;; k" := (obind m (fun x => k))
  (at level 61, m at next level, right associativity).

(** Reading an attribute that was never assigned raises [AttributeError]. *)
Definition getattr {A} (field : option A) : outcome A :=
  match field with
  | Some a => Ok a
  | None => Raise AttributeError
  end.

(** ** The [struct] module *)

Module Struct.

Inductive ByteOrder : Type := Little | Big.          (* "<" and ">" *)

Inductive code : Type := c_x | c_s | c_H | c_I | c_Q.

Definition item : Type := (nat * code)%type.

Record format : Type := Format { order : option ByteOrder; items : list item }.

Inductive value : Type :=
| VInt (z : Z)
| VBytes (b : bytes).

Definition code_size (c : code) : nat :=
  match c with
  | c_x | c_s => 1
  | c_H => 2
  | c_I => 4
  | c_Q => 8
  end%nat.

(** Native mode (no order character) aligns every item to its size;
    the standard modes ["<"] and [">"] never pad. The native sizes of
    [H], [I] and [Q] are taken to be the standard ones (2, 4 and 8 bytes),
    as they are on the platforms CPython runs on. *)
Definition padding (o : option ByteOrder) (off : nat) (c : code) : nat :=
  match o with
  | Some _ => 0
  | None => ((code_size c - off mod code_size c) mod code_size c)
  end%nat.

Fixpoint size_from (o : option ByteOrder) (off : nat) (its : list item) : nat :=
  match its with
  | [] => off
  | (n, c) :: rest =>
      size_from o (off + padding o off c + n * code_size c) rest
  end%nat.

(** The number of bytes a format describes. *)
Definition total_size (f : format) : Z :=
  Z.of_nat (size_from (order f) 0 (items f)).

(** [PY_SSIZE_T_MAX] of a 64-bit CPython: the largest size a format may
    describe, and the largest length a [bytes] object may have. *)
Definition PY_SSIZE_T_MAX : Z := 2 ^ 63 - 1.

(** [struct.calcsize]: [struct.error] ("total struct size too long") for a
    format whose size does not fit [Py_ssize_t]. *)
Definition calcsize (f : format) : outcome Z :=
  if total_size f <=? PY_SSIZE_T_MAX then Ok (total_size f)
  else Raise StructError.

Definition decode (bo : ByteOrder) (b : bytes) : Z :=
  match bo with
  | Little => le_combine b
  | Big => le_combine (rev b)
  end.

Definition encode (bo : ByteOrder) (size : nat) (z : Z) : bytes :=
  match bo with
  | Little => le_split size z
  | Big => rev (le_split size z)
  end.

Fixpoint chunks (size n : nat) (data : bytes) : list bytes :=
  match n with
  | O => []
  | S k => firstn size data :: chunks size k (skipn size data)
  end.

Definition unpack_item (bo : ByteOrder) (n : nat) (c : code) (field : bytes)
  : list value :=
  match c with
  | c_x => []
  | c_s => [VBytes field]
  | _ => map (fun b => VInt (decode bo b)) (chunks (code_size c) n field)
  end.

Fixpoint unpack_from (o : option ByteOrder) (bo : ByteOrder) (off : nat)
    (its : list item) (data : bytes) : list value :=
  match its with
  | [] => []
  | (n, c) :: rest =>
      let pad := padding o off c in
      let len := (n * code_size c)%nat in
      unpack_item bo n c (firstn len (skipn pad data))
        ++ unpack_from o bo (off + pad + len) rest (skipn (pad + len) data)
  end.

Section Host.

(** The byte order of the machine the reader runs on: what native mode
    uses. *)
Variable host : ByteOrder.

Definition byte_order (f : format) : ByteOrder :=
  match order f with
  | Some bo => bo
  | None => host
  end.

(** [struct.unpack]: the format is compiled first, which fails as
    [calcsize] does; then the buffer must have exactly [calcsize] bytes. *)
Definition unpack (f : format) (data : bytes) : outcome (list value) :=
  size <-- calcsize f ;;
  if Z.of_nat (length data) =? size
  then Ok (unpack_from (order f) (byte_order f) 0 (items f) data)
  else Raise StructError.

Definition in_range (c : code) (z : Z) : bool :=
  (0 <=? z) && (z <? 2 ^ (8 * Z.of_nat (code_size c))).

Fixpoint pack_ints (bo : ByteOrder) (c : code) (n : nat) (vals : list value)
  : outcome (bytes * list value) :=
  match n with
  | O => Ok ([], vals)
  | S k =>
      match vals with
      | VInt z :: vs =>
          if in_range c z
          then r <-- pack_ints bo c k vs ;;
               Ok (encode bo (code_size c) z ++ fst r, snd r)
          else Raise StructError
      | _ => Raise StructError
      end
  end.

Fixpoint pack_from (o : option ByteOrder) (bo : ByteOrder) (off : nat)
    (its : list item) (vals : list value) : outcome bytes :=
  match its with
  | [] =>
      match vals with
      | [] => Ok []
      | _ => Raise StructError
      end
  | (n, c) :: rest =>
      let pad := padding o off c in
      let off' := (off + pad + n * code_size c)%nat in
      match c with
      | c_x =>
          b <-- pack_from o bo off' rest vals ;;
          Ok (repeat Byte.x00 (pad + n) ++ b)
      | c_s =>
          match vals with
          | VBytes s :: vs =>
              b <-- pack_from o bo off' rest vs ;;
              Ok (repeat Byte.x00 pad
                    ++ firstn n s ++ repeat Byte.x00 (n - length s) ++ b)
          | _ => Raise StructError
          end
      | _ =>
          r <-- pack_ints bo c n vals ;;
          b <-- pack_from o bo off' rest (snd r) ;;
          Ok (repeat Byte.x00 pad ++ fst r ++ b)
      end
  end.

(** [struct.pack]: the format is compiled first, as in [unpack]. *)
Definition pack (f : format) (vals : list value) : outcome bytes :=
  size <-- calcsize f ;;
  pack_from (order f) (byte_order f) 0 (items f) vals.

End Host.

End Struct.

Import Struct.

(** ** async_cog.ifd *)

Module ifd.

(** Modelled from the spec: the class [Tag] of [async_cog.ifd], which is
    not under src/. A tag entry has a numeric code, a numeric type
    identifier, a value count, a pointer and the inline bytes; [cog.py]
    builds it with [code], [type], [n_values] and [pointer] only, which
    leaves [data] unset. *)
Record Tag : Type := {
  code : Z;
  type : Z;
  n_values : Z;
  pointer : option Z;
  data : option bytes
}.

(** Modelled from the spec: the class [IFD] of [async_cog.ifd], which is
    not under src/: the directory's own offset, the declared tag count,
    the offset of the next directory and the decoded tag entries. *)
Record IFD : Type := {
  offset : Z;
  n_tags : Z;
  next_ifd_pointer : Z;
  tags : list Tag
}.

Section TypeTable.

(** Modelled from the spec: the known type table of [async_cog.ifd],
    which is not under src/: the byte size of one value of each known
    type identifier, [None] for an unknown one. *)
Variable per_type_byte_size : Z -> option N.

(** Modelled from the spec: the property [Tag.data_size] of
    [async_cog.ifd], which is not under src/: the per-type byte size
    times the value count; a type identifier outside the table raises
    the error that [_tags_from_data] catches. *)
Definition data_size (tag : Tag) : outcome Z :=
  match per_type_byte_size (type tag) with
  | Some sz => Ok (Z.of_N sz * n_values tag)
  | None => Raise (ValueError "unknown tag type")
  end.

End TypeTable.

Definition set_data (d : option bytes) (tag : Tag) : Tag :=
  {| code := code tag; type := type tag; n_values := n_values tag;
     pointer := pointer tag; data := d |}.

Definition set_pointer (p : option Z) (tag : Tag) : Tag :=
  {| code := code tag; type := type tag; n_values := n_values tag;
     pointer := p; data := data tag |}.

End ifd.

(** ** The transport: aiohttp's [ClientSession] and the remote file *)

(** The [Range] header [bytes=first-last]. *)
Definition Range : Type := (Z * Z)%type.

Definition range_length (r : Range) : Z := snd r - fst r + 1.

Record Response : Type := { ok : bool; body : bytes }.

(** What the server at [self.url] answers to a range request; [None] when the
    request cannot be performed at all. The body that [response.read()]
    returns is a [bytes] object, so it is never longer than
    [PY_SSIZE_T_MAX]. *)
Record Transport : Type := {
  answer :> Range -> option Response;
  body_fits : forall r response,
    answer r = Some response ->
    Z.of_nat (length (body response)) <= PY_SSIZE_T_MAX
}.

(** The session object: whether it was closed, and the requests sent through
    it so far. *)
Record ClientSession : Type := { closed : bool; sent : list Range }.

Definition new_ClientSession : ClientSession := {| closed := false; sent := [] |}.

Definition record_request (r : Range) (c : ClientSession) : ClientSession :=
  {| closed := closed c; sent := sent c ++ [r] |}.

Definition close (c : ClientSession) : ClientSession :=
  {| closed := true; sent := sent c |}.

(** ** class COGReader *)

Inductive PointerFmt : Type := ptr_I | ptr_Q.     (* Literal["I", "Q"] *)
Inductive NFmt : Type := n_H | n_Q.               (* Literal["H", "Q"] *)

Definition pointer_code (p : PointerFmt) : code :=
  match p with ptr_I => c_I | ptr_Q => c_Q end.

Definition n_code (n : NFmt) : code :=
  match n with n_H => c_H | n_Q => c_Q end.

Record COGReader : Type := {
  _url : string;
  _version : option Z;
  _first_ifd_pointer : option Z;
  _ifds : list ifd.IFD;
  _byte_order_fmt : option ByteOrder;
  _pointer_fmt : option PointerFmt;
  _n_fmt : option NFmt;
  _client : option ClientSession
}.

(** [COGReader(url)]: [__init__] assigns [_url] and [_ifds] only. *)
Definition __init__ (url : string) : COGReader :=
  {| _url := url; _version := None; _first_ifd_pointer := None; _ifds := [];
     _byte_order_fmt := None; _pointer_fmt := None; _n_fmt := None;
     _client := None |}.

Definition set_version (v : Z) (self : COGReader) : COGReader :=
  {| _url := _url self; _version := Some v;
     _first_ifd_pointer := _first_ifd_pointer self; _ifds := _ifds self;
     _byte_order_fmt := _byte_order_fmt self; _pointer_fmt := _pointer_fmt self;
     _n_fmt := _n_fmt self; _client := _client self |}.

Definition set_first_ifd_pointer (p : Z) (self : COGReader) : COGReader :=
  {| _url := _url self; _version := _version self;
     _first_ifd_pointer := Some p; _ifds := _ifds self;
     _byte_order_fmt := _byte_order_fmt self; _pointer_fmt := _pointer_fmt self;
     _n_fmt := _n_fmt self; _client := _client self |}.

Definition append_ifd (d : ifd.IFD) (self : COGReader) : COGReader :=
  {| _url := _url self; _version := _version self;
     _first_ifd_pointer := _first_ifd_pointer self; _ifds := _ifds self ++ [d];
     _byte_order_fmt := _byte_order_fmt self; _pointer_fmt := _pointer_fmt self;
     _n_fmt := _n_fmt self; _client := _client self |}.

Definition set_byte_order_fmt (bo : ByteOrder) (self : COGReader) : COGReader :=
  {| _url := _url self; _version := _version self;
     _first_ifd_pointer := _first_ifd_pointer self; _ifds := _ifds self;
     _byte_order_fmt := Some bo; _pointer_fmt := _pointer_fmt self;
     _n_fmt := _n_fmt self; _client := _client self |}.

Definition set_pointer_fmt (p : PointerFmt) (self : COGReader) : COGReader :=
  {| _url := _url self; _version := _version self;
     _first_ifd_pointer := _first_ifd_pointer self; _ifds := _ifds self;
     _byte_order_fmt := _byte_order_fmt self; _pointer_fmt := Some p;
     _n_fmt := _n_fmt self; _client := _client self |}.

Definition set_n_fmt (n : NFmt) (self : COGReader) : COGReader :=
  {| _url := _url self; _version := _version self;
     _first_ifd_pointer := _first_ifd_pointer self; _ifds := _ifds self;
     _byte_order_fmt := _byte_order_fmt self; _pointer_fmt := _pointer_fmt self;
     _n_fmt := Some n; _client := _client self |}.

Definition set_client (c : ClientSession) (self : COGReader) : COGReader :=
  {| _url := _url self; _version := _version self;
     _first_ifd_pointer := _first_ifd_pointer self; _ifds := _ifds self;
     _byte_order_fmt := _byte_order_fmt self; _pointer_fmt := _pointer_fmt self;
     _n_fmt := _n_fmt self; _client := Some c |}.

(** *** Methods that assign attributes or use the network *)

Definition M (A : Type) : Type := COGReader -> outcome A * COGReader.

Definition ret {A} (a : A) : M A := fun self => (Ok a, self).

Definition bind {A B} (m : M A) (k : A -> M B) : M B :=
  fun self =>
    match m self with
    | (Ok a, self') => k a self'
    | (Raise e, self') => (Raise e, self')
    | (OutOfFuel, self') => (OutOfFuel, self')
    end.

Notation "x <- m ;; k" := (bind m (fun x => k))
  (at level 61, m at next level, right associativity).
Notation "m ;;; k" := (bind m (fun _ => k))
  (at level 61, right associativity).

Definition raise {A} (e : exn) : M A := fun self => (Raise e, self).

(** Calling a method that only reads [self]. *)
Definition call {A} (f : COGReader -> outcome A) : M A :=
  fun self => (f self, self).

Definition lift {A} (o : outcome A) : M A := fun self => (o, self).

Definition assign (f : COGReader -> COGReader) : M unit :=
  fun self => (Ok tt, f self).

Definition assert_ (b : bool) : M unit :=
  if b then ret tt else raise AssertionError.

Definition bytes_eq_dec : forall a b : bytes, {a = b} + {a <> b} :=
  list_eq_dec Byte.byte_eq_dec.

Definition b_II : bytes := [Byte.x49; Byte.x49].
Definition b_MM : bytes := [Byte.x4d; Byte.x4d].

Section Reader.

(** The remote file behind [self.url]. *)
Variable net : Transport.

(** The byte order of the machine running the reader. *)
Variable host : ByteOrder.

(** The type table of [async_cog.ifd] (see [ifd.data_size]). *)
Variable per_type_byte_size : Z -> option N.

(** [is_bigtiff]: [self._version == 43]. *)
Definition is_bigtiff (self : COGReader) : outcome bool :=
  v <-- getattr (_version self) ;;
  Ok (v =? 43).

(** [_format]: puts the byte-order character in front of a format. *)
Definition _format (self : COGReader) (format_str : list item) : outcome format :=
  bo <-- getattr (_byte_order_fmt self) ;;
  Ok (Format (Some bo) format_str).

(** [_tag_format]: [self._format(f"HH2{self._pointer_fmt}")]. *)
Definition _tag_format (self : COGReader) : outcome format :=
  pf <-- getattr (_pointer_fmt self) ;;
  _format self [(1%nat, c_H); (1%nat, c_H); (2%nat, pointer_code pf)].

(** [_read]: one range request; only the status of the response is
    checked. *)
Definition _read (offset size : Z) : M bytes :=
  fun self =>
    match _client self with
    | None => (Raise AttributeError, self)
    | Some c =>
        if closed c then (Raise RuntimeError, self)
        else
          let header : Range := (offset, offset + size - 1) in
          let self' := set_client (record_request header c) self in
          match net header with
          | None => (Raise ClientError, self')
          | Some response =>
              if ok response
              then (Ok (body response), self')
              else (Raise AssertionError, self')
          end
    end.

Definition _read_first_header : M unit :=
  data <- _read 0 4 ;;
  vals <- lift (unpack host (Format None [(2%nat, c_s); (2%nat, c_x)]) data) ;;
  match vals with
  | [VBytes first_bytest] =>
      (if bytes_eq_dec first_bytest b_II then assign (set_byte_order_fmt Little)
       else if bytes_eq_dec first_bytest b_MM then assign (set_byte_order_fmt Big)
       else raise AssertionError) ;;;
      fmt <- call (fun self => _format self [(2%nat, c_x); (1%nat, c_H)]) ;;
      vals <- lift (unpack host fmt data) ;;
      match vals with
      | [VInt version] =>
          assign (set_version version) ;;;
          assert_ ((version =? 42) || (version =? 43))
      | _ => raise (ValueError "unpack")
      end
  | _ => raise (ValueError "unpack")
  end.

Definition _read_second_header : M unit :=
  format_str <- call (fun self =>
                        pf <-- getattr (_pointer_fmt self) ;;
                        _format self [(1%nat, pointer_code pf)]) ;;
  size <- lift (calcsize format_str) ;;
  data <- _read 4 size ;;
  vals <- lift (unpack host format_str data) ;;
  match vals with
  | [VInt p] => assign (set_first_ifd_pointer p)
  | _ => raise (ValueError "unpack")
  end.

Definition _read_bigtiff_second_header : M unit :=
  format_str <- call (fun self =>
                        _format self [(1%nat, c_H); (1%nat, c_H); (1%nat, c_Q)]) ;;
  size <- lift (calcsize format_str) ;;
  data <- _read 4 size ;;
  vals <- lift (unpack host format_str data) ;;
  match vals with
  | [VInt bytesize; VInt placeholder; VInt p] =>
      assign (set_first_ifd_pointer p) ;;;
      assert_ (bytesize =? 8) ;;;
      assert_ (placeholder =? 0)
  | _ => raise (ValueError "unpack")
  end.

Definition _read_header : M unit :=
  _read_first_header ;;;
  big <- call is_bigtiff ;;
  if (big : bool) then
    assign (set_pointer_fmt ptr_Q) ;;;
    assign (set_n_fmt n_Q) ;;;
    _read_bigtiff_second_header
  else
    assign (set_pointer_fmt ptr_I) ;;;
    assign (set_n_fmt n_H) ;;;
    _read_second_header.

Definition _tag_from_tag_data (self : COGReader) (tag_data : bytes)
  : outcome ifd.Tag :=
  fmt <-- _tag_format self ;;
  vals <-- unpack host fmt tag_data ;;
  match vals with
  | [VInt code; VInt tag_type; VInt n_values; VInt pointer] =>
      let tag := {| ifd.code := code; ifd.type := tag_type;
                    ifd.n_values := n_values; ifd.pointer := Some pointer;
                    ifd.data := None |} in
      size <-- ifd.data_size per_type_byte_size tag ;;
      pf <-- getattr (_pointer_fmt self) ;;
      pointer_width <-- calcsize (Format None [(1%nat, pointer_code pf)]) ;;
      if size <=? pointer_width then
        packed <-- pack host (Format None [(1%nat, pointer_code pf)]) [VInt pointer] ;;
        Ok (ifd.set_pointer None
              (ifd.set_data (Some (firstn (Z.to_nat size) packed)) tag))
      else Ok tag
  | _ => Raise (ValueError "unpack")
  end.

(** The body of the generator [_tags_from_data]: a tag whose decoding
    raises [ValueError] is skipped. The source yields the tags one by one
    when the directory's tag sequence is consumed; the embedding is the list
    of what is yielded, in that order. The generator reads
    [_byte_order_fmt] and [_pointer_fmt] only, which no later step of the
    session assigns again. *)
Fixpoint yield_tags (self : COGReader) (records : list value)
  : outcome (list ifd.Tag) :=
  match records with
  | [] => Ok []
  | v :: rest =>
      match (match v with
             | VBytes tag_data => _tag_from_tag_data self tag_data
             | VInt _ => Raise TypeError
             end) with
      | Ok tag => tags <-- yield_tags self rest ;; Ok (tag :: tags)
      | Raise (ValueError _) => yield_tags self rest
      | Raise e => Raise e
      | OutOfFuel => OutOfFuel
      end
  end.

Definition _tags_from_data (self : COGReader) (n_tags : Z) (tags_data : bytes)
  : outcome (list ifd.Tag) :=
  fmt <-- _tag_format self ;;
  size <-- calcsize fmt ;;
  records <-- unpack host
                (Format None (repeat (Z.to_nat size, c_s) (Z.to_nat n_tags)))
                tags_data ;;
  yield_tags self records.

Definition _read_ifd (ifd_pointer : Z) : M ifd.IFD :=
  n_format_str <- call (fun self =>
                          nf <-- getattr (_n_fmt self) ;;
                          _format self [(1%nat, n_code nf)]) ;;
  n_size <- lift (calcsize n_format_str) ;;
  n_data <- _read ifd_pointer n_size ;;
  vals <- lift (unpack host n_format_str n_data) ;;
  match vals with
  | [VInt n_tags] =>
      tag_format <- call _tag_format ;;
      tag_size <- lift (calcsize tag_format) ;;
      let tags_len := n_tags * tag_size in
      n_size <- lift (calcsize n_format_str) ;;
      let ifd_offset := ifd_pointer + n_size in
      ifd_format_str <- call (fun self =>
                                pf <-- getattr (_pointer_fmt self) ;;
                                _format self [(Z.to_nat tags_len, c_s);
                                              (1%nat, pointer_code pf)]) ;;
      ifd_size <- lift (calcsize ifd_format_str) ;;
      ifd_data <- _read ifd_offset ifd_size ;;
      vals <- lift (unpack host ifd_format_str ifd_data) ;;
      match vals with
      | [VBytes tags_data; VInt pointer] =>
          tags <- call (fun self => _tags_from_data self n_tags tags_data) ;;
          ret {| ifd.offset := ifd_pointer; ifd.n_tags := n_tags;
                 ifd.next_ifd_pointer := pointer; ifd.tags := tags |}
      | _ => raise (ValueError "unpack")
      end
  | _ => raise (ValueError "unpack")
  end.

(** The loop of [_read_idfs], one unit of fuel per directory read. *)
Fixpoint _read_idfs_loop (fuel : nat) (pointer : Z) : M unit :=
  if pointer >? 0 then
    match fuel with
    | O => fun self => (OutOfFuel, self)
    | S fuel' =>
        d <- _read_ifd pointer ;;
        assign (append_ifd d) ;;;
        _read_idfs_loop fuel' (ifd.next_ifd_pointer d)
    end
  else ret tt.

Definition _read_idfs (fuel : nat) : M unit :=
  pointer <- call (fun self => getattr (_first_ifd_pointer self)) ;;
  _read_idfs_loop fuel pointer.

(** [try: ... except AssertionError: raise ValueError("Invalid file format")] *)
Definition except_AssertionError {A} (m : M A) (handler : M A) : M A :=
  fun self =>
    match m self with
    | (Raise AssertionError, self') => handler self'
    | r => r
    end.

Definition __aenter__ (fuel : nat) : M unit :=
  assign (set_client new_ClientSession) ;;;
  except_AssertionError
    (_read_header ;;; _read_idfs fuel)
    (raise (ValueError "Invalid file format")).

Definition __aexit__ : M unit :=
  fun self =>
    match _client self with
    | None => (Raise AttributeError, self)
    | Some c => (Ok tt, set_client (close c) self)
    end.

(** [async with COGReader(url) as reader: body]: [__aexit__] runs when the
    block is left, normally or by an exception, but only once [__aenter__]
    has returned; an exception of [__aenter__] leaves the statement at
    once. *)
Definition async_with {A} (fuel : nat) (url : string) (block : M A)
  : outcome A * COGReader :=
  match __aenter__ fuel (__init__ url) with
  | (Ok _, reader) =>
      match block reader with
      | (result, reader') =>
          match __aexit__ reader' with
          | (Ok _, reader'') => (result, reader'')
          | (Raise e, reader'') => (Raise e, reader'')
          | (OutOfFuel, reader'') => (OutOfFuel, reader'')
          end
      end
  | (Raise e, reader) => (Raise e, reader)
  | (OutOfFuel, reader) => (OutOfFuel, reader)
  end.

End Reader.


(** * Vocabulary of the properties *)

(** ** Layout of a tag record and of a directory *)

Definition pointer_size (pf : PointerFmt) : nat := code_size (pointer_code pf).

Definition count_size (nf : NFmt) : nat := code_size (n_code nf).

(** Code, type, count and pointer-or-value slot. *)
Definition record_size (pf : PointerFmt) : nat := (4 + 2 * pointer_size pf)%nat.


Definition field_code (bo : ByteOrder) (td : bytes) : Z := decode bo (firstn 2 td).

Definition field_type (bo : ByteOrder) (td : bytes) : Z :=
  decode bo (firstn 2 (skipn 2 td)).

Definition field_count (bo : ByteOrder) (pf : PointerFmt) (td : bytes) : Z :=
  decode bo (firstn (pointer_size pf) (skipn 4 td)).

(** The bytes of the last field of a record, as they are in the file. *)
Definition value_slot (pf : PointerFmt) (td : bytes) : bytes :=
  firstn (pointer_size pf) (skipn (4 + pointer_size pf) td).

(** The tag as [_tag_from_tag_data] first builds it, before the size test. *)
Definition raw_tag (bo : ByteOrder) (pf : PointerFmt) (td : bytes) : ifd.Tag :=
  {| ifd.code := field_code bo td; ifd.type := field_type bo td;
     ifd.n_values := field_count bo pf td;
     ifd.pointer := Some (decode bo (value_slot pf td)); ifd.data := None |}.

Definition known_type (per_type_byte_size : Z -> option N) (ty : Z) : bool :=
  match per_type_byte_size ty with
  | Some _ => true
  | None => false
  end.

Definition nonneg_value (v : value) : Prop :=
  match v with
  | VInt z => 0 <= z
  | VBytes _ => True
  end.

Definition marker_order (marker : bytes) : option ByteOrder :=
  if bytes_eq_dec marker b_II then Some Little
  else if bytes_eq_dec marker b_MM then Some Big
  else None.

(** ** The session and the reader's attributes *)

Definition after_request (r : Range) (c : ClientSession) (s : COGReader) : COGReader :=
  set_client (record_request r c) s.

Definition requests (s : COGReader) : list Range :=
  match _client s with
  | Some c => sent c
  | None => []
  end.

Definition session_open (s : COGReader) : Prop :=
  exists c, _client s = Some c /\ closed c = false.

(** The attributes that fix the field widths of a session. *)
Definition widths_are (v : Z) (pf : PointerFmt) (nf : NFmt) (s : COGReader) : Prop :=
  _version s = Some v /\ _pointer_fmt s = Some pf /\ _n_fmt s = Some nf.

Definition ifds_are (l : list ifd.IFD) (s : COGReader) : Prop := _ifds s = l.

(** A method keeps an invariant of the reader, whatever its outcome. *)
Definition preserves {A} (I : COGReader -> Prop) (m : M A) : Prop :=
  forall s r s', I s -> m s = (r, s') -> I s'.

Definition stable_under (I : COGReader -> Prop) (f : COGReader -> COGReader) : Prop :=
  forall s, I s -> I (f s).

Definition stable_request (I : COGReader -> Prop) : Prop :=
  forall s c r, I s -> _client s = Some c -> closed c = false ->
                I (set_client (record_request r c) s).

(** ** Directory chains *)

(** [ds] is a list of directories linked from [p]: each one sits at the
    offset the previous one names, and the walk ends at a pointer that is
    not positive. *)
Fixpoint linked (p : Z) (ds : list ifd.IFD) : Prop :=
  match ds with
  | [] => p <= 0
  | d :: rest =>
      p > 0 /\ ifd.offset d = p /\ 0 <= ifd.next_ifd_pointer d /\
      linked (ifd.next_ifd_pointer d) rest
  end.

Section Chain.

Variable net : Transport.
Variable host : ByteOrder.
Variable per_type_byte_size : Z -> option N.

(** Reading at [p], then at each next-directory offset in turn, decodes
    exactly the directories [ds] and leaves the reader in [s']. *)
Fixpoint chain (s : COGReader) (p : Z) (ds : list ifd.IFD) (s' : COGReader) : Prop :=
  match ds with
  | [] => p <= 0 /\ s' = s
  | d :: rest =>
      p > 0 /\
      fst (_read_ifd net host per_type_byte_size p s) = Ok d /\
      chain (append_ifd d (snd (_read_ifd net host per_type_byte_size p s)))
        (ifd.next_ifd_pointer d) rest s'
  end.

(** The beginning of a walk: reading at [p], then at each next-directory
    offset in turn, decodes the directories [ds] and leaves the reader in
    [s'] with [q] the offset to read next; nothing is said of what happens
    at [q]. *)
Fixpoint walked (s : COGReader) (p : Z) (ds : list ifd.IFD) (s' : COGReader) (q : Z)
  : Prop :=
  match ds with
  | [] => s' = s /\ q = p
  | d :: rest =>
      p > 0 /\
      fst (_read_ifd net host per_type_byte_size p s) = Ok d /\
      walked (append_ifd d (snd (_read_ifd net host per_type_byte_size p s)))
        (ifd.next_ifd_pointer d) rest s' q
  end.

End Chain.

(** What [__aenter__] raises when the decoders raise [e]. *)
Definition reported (e : exn) : exn :=
  match e with
  | AssertionError => ValueError "Invalid file format"
  | _ => e
  end.

(** ** Two readings of the fetch contract, as the specification words them *)

(** A successful fetch returns exactly [size] bytes. *)
Definition fetch_returns_exactly (net : Transport) (s : COGReader) (offset size : Z)
  : Prop :=
  forall b s', _read net offset size s = (Ok b, s') -> Z.of_nat (length b) = size.

(** The extended second header is one request of [len] bytes at offset 4. *)
Definition extended_header_fetches (len : Z) (net : Transport) (host : ByteOrder)
    (s : COGReader) : Prop :=
  forall u s',
    _read_bigtiff_second_header net host s = (Ok u, s') ->
    exists r, requests s' = requests s ++ [r] /\ fst r = 4 /\ range_length r = len.

(** ** Files and readers of the scenarios *)

Definition octets (l : list Z) : bytes := map byte.of_Z l.

(** A file served with HTTP range semantics: the bytes [first..last] that
    exist, cut at the end of the file, and an error status when the range
    starts past the end. *)
Definition range_answer (file : bytes) (r : Range) : option Response :=
  let len := Z.of_nat (length file) in
  if (0 <=? fst r) && (fst r <=? snd r) && (fst r <? len)
  then Some {| ok := true;
               body := firstn (Z.to_nat (Z.min (Z.min (snd r) (len - 1) - fst r + 1)
                                           PY_SSIZE_T_MAX))
                         (skipn (Z.to_nat (fst r)) file) |}
  else Some {| ok := false; body := [] |}.

(** A body served from a file is within the limit of [Transport]. *)
Definition range_answer_fits (file : bytes) (r : Range) (response : Response) :
  range_answer file r = Some response ->
  Z.of_nat (length (body response)) <= PY_SSIZE_T_MAX.
Proof.
  assert (Hmax : 0 <= PY_SSIZE_T_MAX) by discriminate.
  unfold range_answer. destruct (_ && _); intros [= <-]; cbn [body length].
  - rewrite length_firstn. lia.
  - exact Hmax.
Qed.

Definition range_server (file : bytes) : Transport :=
  {| answer := range_answer file; body_fits := range_answer_fits file |}.

(** Modelled from the spec: a type table for the scenarios, standing for the
    table of [async_cog.ifd], which is not under src/. The specification
    names one entry (type 3 is 2 bytes wide); types 1 and 4 are TIFF's
    one-byte and four-byte integers; every other identifier is unknown. *)
Definition sample_types (t : Z) : option N :=
  match t with
  | 1 => Some 1%N
  | 3 => Some 2%N
  | 4 => Some 4%N
  | _ => None
  end.

(** A reader whose session was just opened. *)
Definition fresh_reader : COGReader :=
  set_client new_ClientSession (__init__ "cog.tif").

(** A reader after a classic header in byte order [bo]. *)
Definition classic_reader (bo : ByteOrder) : COGReader :=
  set_n_fmt n_H
    (set_pointer_fmt ptr_I (set_version 42 (set_byte_order_fmt bo fresh_reader))).

(** "II", version 42, first directory at 100; the directory has the one tag
    (code 256, type 3, count 1, value 512) and no successor. *)
Definition classic_file : bytes :=
  octets [73; 73; 42; 0;  100; 0; 0; 0] ++ repeat Byte.x00 92
  ++ octets [1; 0;  0; 1; 3; 0; 1; 0; 0; 0; 0; 2; 0; 0;  0; 0; 0; 0].

(** Directory A at 8 with next = 26, directory B at 26 with next = 0. *)
Definition two_directories : bytes :=
  octets [73; 73; 42; 0;  8; 0; 0; 0;
          1; 0;  0; 1; 3; 0; 1; 0; 0; 0; 0; 2; 0; 0;  26; 0; 0; 0;
          0; 0;  0; 0; 0; 0].

(** The first directory has two tags, the first of the unknown type 99; a
    second directory follows at 38. *)
Definition unknown_type_file : bytes :=
  octets [73; 73; 42; 0;  8; 0; 0; 0;
          2; 0;  1; 1; 99; 0; 1; 0; 0; 0; 7; 0; 0; 0;
                 0; 1; 3; 0; 1; 0; 0; 0; 0; 2; 0; 0;  38; 0; 0; 0;
          1; 0;  2; 1; 4; 0; 2; 0; 0; 0; 64; 0; 0; 0;  0; 0; 0; 0].

(** "MM", version 43, pointer size 8, reserved 0, first directory at 16,
    where an empty directory sits. *)
Definition bigtiff_file : bytes :=
  octets [77; 77; 0; 43;  0; 8;  0; 0;  0; 0; 0; 0; 0; 0; 0; 16;
          0; 0; 0; 0; 0; 0; 0; 0;  0; 0; 0; 0; 0; 0; 0; 0].

Definition bigtiff_pointer_size_4 : bytes :=
  octets [77; 77; 0; 43;  0; 4;  0; 0;  0; 0; 0; 0; 0; 0; 0; 16;
          0; 0; 0; 0; 0; 0; 0; 0;  0; 0; 0; 0; 0; 0; 0; 0].

(** The same header cut after the 8 bytes that follow the first header. *)
Definition bigtiff_cut_at_12 : bytes := firstn 12 bigtiff_file.

Definition bad_marker_file : bytes := octets [88; 88; 42; 0;  8; 0; 0; 0].

(** A file that ends in the middle of the classic second header. *)
Definition short_file : bytes := octets [73; 73; 42; 0;  8; 0].

(** The tag (code 256, type 3, count 1, value 512) as a classic record, in
    each byte order; the value is left-justified in its slot. *)
Definition big_endian_record : bytes :=
  octets [1; 0;  0; 3;  0; 0; 0; 1;  2; 0; 0; 0].

Definition little_endian_record : bytes :=
  octets [0; 1;  3; 0;  1; 0; 0; 0;  0; 2; 0; 0].

Definition image_width_tag : ifd.Tag :=
  {| ifd.code := 256; ifd.type := 3; ifd.n_values := 1;
     ifd.pointer := None; ifd.data := Some (octets [0; 2]) |}.

Definition directory_A : ifd.IFD :=
  {| ifd.offset := 8; ifd.n_tags := 1; ifd.next_ifd_pointer := 26;
     ifd.tags := [image_width_tag] |}.

Definition directory_B : ifd.IFD :=
  {| ifd.offset := 26; ifd.n_tags := 0; ifd.next_ifd_pointer := 0; ifd.tags := [] |}.

Definition after_header (file : bytes) (host : ByteOrder) : COGReader :=
  snd (_read_header (range_server file) host fresh_reader).

Definition after_walk (file : bytes) (host : ByteOrder) (fuel : nat) : COGReader :=
  snd (__aenter__ (range_server file) host sample_types fuel (__init__ "cog.tif")).


(** ** Vocabulary of the properties of the whole session *)

Definition first_ifd_pointer_is (p : option Z) (s : COGReader) : Prop :=
  _first_ifd_pointer s = p.

(** The directory list of [s] is [l] followed by more directories. *)
Definition ifds_extend (l : list ifd.IFD) (s : COGReader) : Prop :=
  exists ds, _ifds s = l ++ ds.

(** The reader [s], whose session is [c], after a header decode that sent
    the requests 0-3 and 4-[last] and assigned the five attributes. *)
Definition header_state (bo : ByteOrder) (v : Z) (pf : PointerFmt) (nf : NFmt)
    (first : Z) (last : Z) (c : ClientSession) (s : COGReader) : COGReader :=
  set_first_ifd_pointer first
    (after_request (4, last) (record_request (0, 3) c)
       (set_n_fmt nf
          (set_pointer_fmt pf
             (set_version v (set_byte_order_fmt bo (after_request (0, 3) c s)))))).

(** "II" with version 7. *)
Definition bad_version_file : bytes := octets [73; 73; 7; 0;  8; 0; 0; 0].

(** The classic header "MM", version 42, first directory at 8. *)
Definition big_endian_header : bytes := octets [77; 77; 0; 42;  0; 0; 0; 8].

(** The extended header of [bigtiff_file] in little-endian order. *)
Definition little_endian_bigtiff_header : bytes :=
  octets [73; 73; 43; 0;  8; 0;  0; 0;  16; 0; 0; 0; 0; 0; 0; 0].

(** The first directory is said to be at 64, past the end of the file. *)
Definition dangling_first_file : bytes := octets [73; 73; 42; 0;  64; 0; 0; 0].

(** The directory at 8 declares one tag, and the file ends 4 bytes into it. *)
Definition truncated_directory_file : bytes :=
  octets [73; 73; 42; 0;  8; 0; 0; 0;  1; 0;  0; 1; 3; 0].

(** The empty directory at 8 names itself as the next directory. *)
Definition self_linked_file : bytes :=
  octets [73; 73; 42; 0;  8; 0; 0; 0;  0; 0;  8; 0; 0; 0].

(** Directory A at 8 names a next directory at 64, past the end of the
    file. *)
Definition dangling_next_file : bytes :=
  octets [73; 73; 42; 0;  8; 0; 0; 0;
          1; 0;  0; 1; 3; 0; 1; 0; 0; 0; 0; 2; 0; 0;  64; 0; 0; 0].

(** The directory of [dangling_next_file]. *)
Definition directory_dangling : ifd.IFD :=
  {| ifd.offset := 8; ifd.n_tags := 1; ifd.next_ifd_pointer := 64;
     ifd.tags := [image_width_tag] |}.

(** A reader after an extended header in byte order [bo]. *)
Definition bigtiff_reader (bo : ByteOrder) : COGReader :=
  set_n_fmt n_Q
    (set_pointer_fmt ptr_Q (set_version 43 (set_byte_order_fmt bo fresh_reader))).

(** "II", version 43, first directory at 16, where the tag count reads
    2^60: the body of that directory would be 20 * 2^60 + 8 bytes. *)
Definition huge_count_file : bytes :=
  octets [73; 73; 43; 0;  8; 0;  0; 0;  16; 0; 0; 0; 0; 0; 0; 0;
          0; 0; 0; 0; 0; 0; 0; 16].


(** * Properties *)

(** ** Tactics *)

(** A buffer of known length is a list of that many bytes. *)
Tactic Notation "explode_bytes" ident(td) integer(n) :=
  do n (destruct td as [|? td]; [discriminate|]);
  destruct td; [|discriminate].

(** ** The [struct] module *)

Lemma decode_bound (bo : ByteOrder) (b : bytes) :
  0 <= decode bo b < 2 ^ (8 * Z.of_nat (length b)).
Proof.
  destruct bo; cbn [decode].
  - apply le_combine_bound.
  - rewrite <- (length_rev b). apply le_combine_bound.
Qed.

Lemma length_encode (bo : ByteOrder) (size : nat) (z : Z) :
  length (encode bo size z) = size.
Proof.
  destruct bo; cbn [encode]; rewrite ?length_rev; apply length_le_split.
Qed.

Lemma encode_decode (bo : ByteOrder) (b : bytes) :
  encode bo (length b) (decode bo b) = b.
Proof.
  destruct bo; cbn [encode decode].
  - apply split_le_combine.
  - rewrite <- (length_rev b), split_le_combine. apply rev_involutive.
Qed.

Lemma padding_s (o : option ByteOrder) (off : nat) : padding o off c_s = 0%nat.
Proof.
  destruct o; unfold padding; cbn [code_size]; [reflexivity|].
  apply Nat.mod_1_r.
Qed.

Lemma size_from_repeat_s (o : option ByteOrder) (size n off : nat) :
  size_from o off (repeat (size, c_s) n) = (off + n * size)%nat.
Proof.
  revert off; induction n as [|n IH]; intros off; cbn [repeat size_from].
  - lia.
  - rewrite padding_s, IH. cbn [code_size]. lia.
Qed.

Lemma unpack_from_repeat_s (o : option ByteOrder) (bo : ByteOrder) (size n : nat) :
  forall (off : nat) (data : bytes),
    unpack_from o bo off (repeat (size, c_s) n) data
    = map VBytes (chunks size n data).
Proof.
  induction n as [|n IH]; intros off data; cbn [repeat unpack_from chunks map].
  - reflexivity.
  - rewrite padding_s. cbn [code_size unpack_item skipn Nat.add app].
    rewrite Nat.mul_1_r. f_equal. apply IH.
Qed.

Lemma chunks_length (size n : nat) :
  forall data : bytes,
    length data = (n * size)%nat ->
    Forall (fun c => length c = size) (chunks size n data).
Proof.
  induction n as [|n IH]; intros data Hlen; cbn [chunks]; constructor.
  - rewrite length_firstn. lia.
  - apply IH. rewrite length_skipn. lia.
Qed.

Lemma length_chunks (size n : nat) (data : bytes) :
  length (chunks size n data) = n.
Proof. revert data; induction n; intros; cbn; auto. Qed.

Lemma unpack_item_nonneg (bo : ByteOrder) (n : nat) (c : code) (field : bytes) :
  Forall nonneg_value (unpack_item bo n c field).
Proof.
  destruct c; cbn [unpack_item]; repeat constructor;
    apply Forall_map, Forall_forall; intros b _; apply decode_bound.
Qed.

Lemma unpack_from_nonneg (o : option ByteOrder) (bo : ByteOrder) (its : list item) :
  forall off data, Forall nonneg_value (unpack_from o bo off its data).
Proof.
  induction its as [|[n c] rest IH]; intros off data; cbn [unpack_from].
  - constructor.
  - apply Forall_app; split; [apply unpack_item_nonneg | apply IH].
Qed.


Section StructLemmas.

Variable host : ByteOrder.

Lemma in_range_decode (bo : ByteOrder) (c : code) (b : bytes) :
  (length b <= code_size c)%nat -> in_range c (decode bo b) = true.
Proof.
  intros Hlen. unfold in_range.
  pose proof (decode_bound bo b) as [Hlo Hhi].
  apply andb_true_intro; split.
  - now apply Z.leb_le.
  - apply Z.ltb_lt. eapply Z.lt_le_trans; [exact Hhi|].
    apply Z.pow_le_mono_r; lia.
Qed.

(** Every integer that [unpack] returns is unsigned. *)
Lemma unpack_nonneg (f : format) (data : bytes) (vals : list value) :
  unpack host f data = Ok vals -> Forall nonneg_value vals.
Proof.
  unfold unpack. destruct (calcsize f) as [size| |]; cbn [obind]; try discriminate.
  destruct (_ =? _); [|discriminate].
  intros [= <-]. apply unpack_from_nonneg.
Qed.

Lemma calcsize_ok (f : format) (size : Z) :
  calcsize f = Ok size -> size = total_size f /\ size <= PY_SSIZE_T_MAX.
Proof.
  unfold calcsize. destruct (Z.leb_spec (total_size f) PY_SSIZE_T_MAX);
    [|discriminate].
  intros [= <-]. now split.
Qed.

Lemma calcsize_fits (f : format) :
  total_size f <= PY_SSIZE_T_MAX -> calcsize f = Ok (total_size f).
Proof. intros H. unfold calcsize. now apply Z.leb_le in H as ->. Qed.

(** A format whose size does not fit is refused. *)
Lemma calcsize_too_long (f : format) :
  PY_SSIZE_T_MAX < total_size f -> calcsize f = Raise StructError.
Proof. intros H. unfold calcsize. now apply Z.leb_gt in H as ->. Qed.

Lemma unpack_wrong_size (f : format) (data : bytes) :
  calcsize f <> Ok (Z.of_nat (length data)) -> unpack host f data = Raise StructError.
Proof.
  intros H. unfold unpack. destruct (calcsize f) as [size|e|] eqn:E; cbn [obind].
  - destruct (Z.eqb_spec (Z.of_nat (length data)) size); [|reflexivity].
    exfalso. apply H. congruence.
  - unfold calcsize in E. destruct (_ <=? _); [discriminate|]. now injection E as <-.
  - unfold calcsize in E. destruct (_ <=? _); discriminate.
Qed.

Lemma calcsize_tag_format (bo : ByteOrder) (pf : PointerFmt) :
  calcsize (Format (Some bo) [(1%nat, c_H); (1%nat, c_H); (2%nat, pointer_code pf)])
  = Ok (Z.of_nat (record_size pf)).
Proof. destruct pf; reflexivity. Qed.

Lemma calcsize_native_pointer (pf : PointerFmt) :
  calcsize (Format None [(1%nat, pointer_code pf)]) = Ok (Z.of_nat (pointer_size pf)).
Proof. destruct pf; reflexivity. Qed.

Lemma calcsize_pointer_format (bo : ByteOrder) (pf : PointerFmt) :
  calcsize (Format (Some bo) [(1%nat, pointer_code pf)])
  = Ok (Z.of_nat (pointer_size pf)).
Proof. destruct pf; reflexivity. Qed.

Lemma calcsize_n_format (bo : ByteOrder) (nf : NFmt) :
  calcsize (Format (Some bo) [(1%nat, n_code nf)]) = Ok (Z.of_nat (count_size nf)).
Proof. destruct nf; reflexivity. Qed.

Lemma total_size_ifd_format (bo : ByteOrder) (pf : PointerFmt) (k : nat) :
  total_size (Format (Some bo) [(k, c_s); (1%nat, pointer_code pf)])
  = Z.of_nat (k + pointer_size pf).
Proof.
  unfold total_size, pointer_size. cbn [order items size_from padding code_size].
  f_equal. lia.
Qed.

Lemma calcsize_ifd_format (bo : ByteOrder) (pf : PointerFmt) (k : nat) :
  Z.of_nat (k + pointer_size pf) <= PY_SSIZE_T_MAX ->
  calcsize (Format (Some bo) [(k, c_s); (1%nat, pointer_code pf)])
  = Ok (Z.of_nat (k + pointer_size pf)).
Proof.
  intros H. rewrite <- total_size_ifd_format with (bo := bo) in *.
  now apply calcsize_fits.
Qed.

(** The format of a directory body whose declared size does not fit. *)
Lemma calcsize_ifd_format_too_long (bo : ByteOrder) (pf : PointerFmt) (k : nat) :
  PY_SSIZE_T_MAX < Z.of_nat (k + pointer_size pf) ->
  calcsize (Format (Some bo) [(k, c_s); (1%nat, pointer_code pf)])
  = Raise StructError.
Proof.
  intros H. rewrite <- total_size_ifd_format with (bo := bo) in H.
  now apply calcsize_too_long.
Qed.

Lemma unpack_tag_record (bo : ByteOrder) (pf : PointerFmt) (td : bytes) :
  length td = record_size pf ->
  unpack host (Format (Some bo) [(1%nat, c_H); (1%nat, c_H); (2%nat, pointer_code pf)]) td
  = Ok [VInt (field_code bo td); VInt (field_type bo td);
        VInt (field_count bo pf td); VInt (decode bo (value_slot pf td))].
Proof.
  intros Hlen.
  destruct pf; cbn in Hlen.
  - explode_bytes td 12. reflexivity.
  - explode_bytes td 20. reflexivity.
Qed.

Lemma unpack_n_format (bo : ByteOrder) (nf : NFmt) (data : bytes) :
  length data = count_size nf ->
  unpack host (Format (Some bo) [(1%nat, n_code nf)]) data = Ok [VInt (decode bo data)].
Proof.
  intros Hlen. destruct nf; cbn in Hlen.
  - explode_bytes data 2. reflexivity.
  - explode_bytes data 8. reflexivity.
Qed.

Lemma unpack_ifd_format (bo : ByteOrder) (pf : PointerFmt) (k : nat) (data : bytes) :
  length data = (k + pointer_size pf)%nat ->
  Z.of_nat (length data) <= PY_SSIZE_T_MAX ->
  unpack host (Format (Some bo) [(k, c_s); (1%nat, pointer_code pf)]) data
  = Ok [VBytes (firstn k data); VInt (decode bo (skipn k data))].
Proof.
  intros Hlen Hfit. unfold unpack. rewrite Hlen in Hfit.
  rewrite (calcsize_ifd_format bo pf k Hfit). cbn [obind].
  rewrite Hlen, Z.eqb_refl.
  cbn [order items byte_order unpack_from padding unpack_item code_size skipn
       Nat.add app].
  rewrite Nat.mul_1_r, Nat.mul_1_l.
  assert (Hs : length (skipn k data) = pointer_size pf)
    by (rewrite length_skipn; lia).
  unfold pointer_size in Hs.
  replace (unpack_item bo 1 (pointer_code pf)
             (firstn (code_size (pointer_code pf)) (skipn k data)))
    with [VInt (decode bo (skipn k data))]; [reflexivity|].
  rewrite <- Hs at 1. rewrite firstn_all.
  destruct pf; cbn [pointer_code unpack_item chunks map code_size] in *;
    rewrite <- Hs, firstn_all; reflexivity.
Qed.

Lemma pack_native_pointer (pf : PointerFmt) (z : Z) :
  in_range (pointer_code pf) z = true ->
  pack host (Format None [(1%nat, pointer_code pf)]) [VInt z]
  = Ok (encode host (pointer_size pf) z).
Proof.
  intros Hr. unfold pack, pointer_size.
  destruct pf; cbn [pointer_code] in Hr |- *;
    cbn -[encode in_range]; rewrite Hr; cbn -[encode];
    now rewrite !app_nil_r.
Qed.

End StructLemmas.

Lemma length_value_slot (pf : PointerFmt) (td : bytes) :
  length td = record_size pf -> length (value_slot pf td) = pointer_size pf.
Proof.
  intros Hlen. unfold value_slot. rewrite length_firstn, length_skipn, Hlen.
  unfold record_size. lia.
Qed.

Lemma field_count_nonneg (bo : ByteOrder) (pf : PointerFmt) (td : bytes) :
  0 <= field_count bo pf td.
Proof. apply decode_bound. Qed.

(** ** The tag decoder *)

Section TagDecoder.

Variable host : ByteOrder.
Variable per_type_byte_size : Z -> option N.

(** What [_tag_from_tag_data] computes on a record of the right size. *)
Lemma tag_from_tag_data_eq (self : COGReader) (bo : ByteOrder) (pf : PointerFmt)
    (td : bytes) :
  _byte_order_fmt self = Some bo ->
  _pointer_fmt self = Some pf ->
  length td = record_size pf ->
  _tag_from_tag_data host per_type_byte_size self td
  = match per_type_byte_size (field_type bo td) with
    | None => Raise (ValueError "unknown tag type")
    | Some sz =>
        let size := Z.of_N sz * field_count bo pf td in
        if size <=? Z.of_nat (pointer_size pf)
        then Ok (ifd.set_pointer None
                   (ifd.set_data
                      (Some (firstn (Z.to_nat size)
                               (encode host (pointer_size pf)
                                  (decode bo (value_slot pf td)))))
                      (raw_tag bo pf td)))
        else Ok (raw_tag bo pf td)
    end.
Proof.
  intros Hbo Hpf Hlen.
  unfold _tag_from_tag_data, _tag_format, _format.
  rewrite Hpf, Hbo. cbn [getattr obind].
  rewrite (unpack_tag_record host bo pf td Hlen). cbn [obind].
  unfold ifd.data_size. cbn [ifd.type ifd.n_values].
  destruct (per_type_byte_size (field_type bo td)) as [sz|]; [|reflexivity].
  cbn [obind getattr]. rewrite calcsize_native_pointer.
  cbn [obind].
  destruct (Z.of_N sz * field_count bo pf td <=? Z.of_nat (pointer_size pf));
    [|reflexivity].
  rewrite pack_native_pointer.
  - reflexivity.
  - apply in_range_decode. rewrite (length_value_slot pf td Hlen). reflexivity.
Qed.

Lemma tag_from_tag_data_wrong_size (self : COGReader) (bo : ByteOrder)
    (pf : PointerFmt) (td : bytes) :
  _byte_order_fmt self = Some bo ->
  _pointer_fmt self = Some pf ->
  length td <> record_size pf ->
  _tag_from_tag_data host per_type_byte_size self td = Raise StructError.
Proof.
  intros Hbo Hpf Hlen.
  unfold _tag_from_tag_data, _tag_format, _format.
  rewrite Hpf, Hbo. cbn [getattr obind].
  rewrite unpack_wrong_size; [reflexivity|].
  rewrite calcsize_tag_format. intros E.
  assert (E' : Z.of_nat (record_size pf) = Z.of_nat (length td)) by congruence.
  apply Nat2Z.inj in E'. congruence.
Qed.

Lemma tag_from_tag_data_ok_inv (self : COGReader) (td : bytes) (tag : ifd.Tag) :
  _tag_from_tag_data host per_type_byte_size self td = Ok tag ->
  exists bo pf,
    _byte_order_fmt self = Some bo /\ _pointer_fmt self = Some pf /\
    length td = record_size pf.
Proof.
  intros H.
  destruct (_byte_order_fmt self) as [bo|] eqn:Hbo.
  - destruct (_pointer_fmt self) as [pf|] eqn:Hpf.
    + exists bo, pf. repeat split.
      destruct (Nat.eq_dec (length td) (record_size pf)) as [|Hne]; [assumption|].
      rewrite (tag_from_tag_data_wrong_size self bo pf td Hbo Hpf Hne) in H.
      discriminate.
    + unfold _tag_from_tag_data, _tag_format in H. rewrite Hpf in H. discriminate.
  - unfold _tag_from_tag_data, _tag_format, _format in H. rewrite Hbo in H.
    destruct (_pointer_fmt self); discriminate.
Qed.

(** C1: every decoded tag entry has exactly one of inline value and pointer.
    With [size] the per-type byte size times the value count: when [size] is
    at most the pointer width of the session the entry has an inline value of
    [size] bytes and no pointer; when it is larger the entry has a pointer and
    no inline value; a count of 0 gives the empty inline value. *)
Theorem tag_inline_xor_pointer (self : COGReader) (td : bytes) (tag : ifd.Tag) :
  _tag_from_tag_data host per_type_byte_size self td = Ok tag ->
  exists pf size pointer_width,
    _pointer_fmt self = Some pf /\
    calcsize (Format None [(1%nat, pointer_code pf)]) = Ok pointer_width /\
    ifd.data_size per_type_byte_size tag = Ok size /\
    (size <= pointer_width ->
     ifd.pointer tag = None /\
     exists d, ifd.data tag = Some d /\ Z.of_nat (length d) = size) /\
    (size > pointer_width ->
     ifd.data tag = None /\ exists p, ifd.pointer tag = Some p) /\
    (ifd.n_values tag = 0 ->
     ifd.pointer tag = None /\ ifd.data tag = Some []).
Proof.
  intros H.
  destruct (tag_from_tag_data_ok_inv self td tag H) as (bo & pf & Hbo & Hpf & Hlen).
  rewrite (tag_from_tag_data_eq self bo pf td Hbo Hpf Hlen) in H.
  exists pf.
  pose proof (field_count_nonneg bo pf td) as Hcnt.
  destruct (per_type_byte_size (field_type bo td)) as [sz|] eqn:Hty; [|discriminate].
  cbv zeta in H.
  exists (Z.of_N sz * field_count bo pf td), (Z.of_nat (pointer_size pf)).
  split; [assumption|]. split; [apply calcsize_native_pointer|].
  destruct (Z.leb_spec (Z.of_N sz * field_count bo pf td) (Z.of_nat (pointer_size pf)))
    as [Hle|Hgt]; injection H as <-;
    unfold ifd.data_size; cbn [ifd.set_pointer ifd.set_data raw_tag ifd.type
      ifd.n_values ifd.pointer ifd.data ifd.code]; rewrite Hty.
  - split; [reflexivity|]. split; [|split].
    + intros _. split; [reflexivity|]. eexists; split; [reflexivity|].
      rewrite length_firstn, length_encode. lia.
    + lia.
    + intros H0. split; [reflexivity|]. now rewrite H0, Z.mul_0_r.
  - split; [reflexivity|]. split; [|split].
    + lia.
    + intros _. split; [reflexivity|]. eexists; reflexivity.
    + intros H0. rewrite H0, Z.mul_0_r in Hgt. lia.
Qed.

(** The inline value is the slot's integer, decoded in the byte order of the
    file and packed again in the byte order of the host, cut to the value
    size. *)
Lemma inline_value_bytes (self : COGReader) (bo : ByteOrder) (pf : PointerFmt)
    (td : bytes) (tag : ifd.Tag) (d : bytes) :
  _byte_order_fmt self = Some bo ->
  _pointer_fmt self = Some pf ->
  _tag_from_tag_data host per_type_byte_size self td = Ok tag ->
  ifd.data tag = Some d ->
  exists size,
    ifd.data_size per_type_byte_size tag = Ok size /\
    d = firstn (Z.to_nat size)
          (encode host (pointer_size pf) (decode bo (value_slot pf td))).
Proof.
  intros Hbo Hpf H Hd.
  destruct (tag_from_tag_data_ok_inv self td tag H) as (bo' & pf' & Hbo' & Hpf' & Hlen).
  rewrite Hbo in Hbo'; injection Hbo' as <-.
  rewrite Hpf in Hpf'; injection Hpf' as <-.
  rewrite (tag_from_tag_data_eq self bo pf td Hbo Hpf Hlen) in H.
  destruct (per_type_byte_size (field_type bo td)) as [sz|] eqn:Hty; [|discriminate].
  cbv zeta in H.
  destruct (Z.of_N sz * field_count bo pf td <=? Z.of_nat (pointer_size pf));
    injection H as <-; cbn in Hd; [|discriminate].
  injection Hd as <-.
  eexists; split; [|reflexivity].
  unfold ifd.data_size. cbn. now rewrite Hty.
Qed.

(** X10: when the file has the byte order of the host, the inline value is
    the slot's bytes as they are in the file, cut to the value size. *)
Lemma inline_value_raw_when_orders_agree (self : COGReader) (pf : PointerFmt)
    (td : bytes) (tag : ifd.Tag) (d : bytes) :
  _byte_order_fmt self = Some host ->
  _pointer_fmt self = Some pf ->
  _tag_from_tag_data host per_type_byte_size self td = Ok tag ->
  ifd.data tag = Some d ->
  exists size,
    ifd.data_size per_type_byte_size tag = Ok size /\
    d = firstn (Z.to_nat size) (value_slot pf td).
Proof.
  intros Hbo Hpf H Hd.
  destruct (inline_value_bytes self host pf td tag d Hbo Hpf H Hd) as (size & Hs & ->).
  exists size; split; [assumption|].
  destruct (tag_from_tag_data_ok_inv self td tag H) as (bo' & pf' & _ & Hpf' & Hlen).
  rewrite Hpf in Hpf'; injection Hpf' as <-.
  rewrite <- (length_value_slot pf td Hlen) at 1.
  now rewrite encode_decode.
Qed.

(** The generator yields, in order, the tags of the records whose type is
    known. *)
Lemma yield_tags_records (self : COGReader) (bo : ByteOrder) (pf : PointerFmt)
    (records : list bytes) :
  _byte_order_fmt self = Some bo ->
  _pointer_fmt self = Some pf ->
  Forall (fun r => length r = record_size pf) records ->
  exists tags,
    yield_tags host per_type_byte_size self (map VBytes records) = Ok tags /\
    Forall2 (fun r tag => _tag_from_tag_data host per_type_byte_size self r = Ok tag)
      (filter (fun r => known_type per_type_byte_size (field_type bo r)) records)
      tags.
Proof.
  intros Hbo Hpf Hall.
  induction Hall as [|r rest Hr Hrest (tags & IHy & IHf)]; cbn [map yield_tags filter].
  - exists []. split; [reflexivity | constructor].
  - pose proof (tag_from_tag_data_eq self bo pf r Hbo Hpf Hr) as Heq.
    unfold known_type.
    destruct (per_type_byte_size (field_type bo r)) as [sz|].
    + cbv zeta in Heq.
      destruct (Z.of_N sz * field_count bo pf r <=? Z.of_nat (pointer_size pf));
        rewrite Heq, IHy; cbn [obind];
        (eexists; split; [reflexivity|]; constructor; [exact Heq | exact IHf]).
    + rewrite Heq. exists tags. split; assumption.
Qed.

Lemma tags_from_data_run (self : COGReader) (bo : ByteOrder) (pf : PointerFmt)
    (n : nat) (tags_data : bytes) :
  _byte_order_fmt self = Some bo ->
  _pointer_fmt self = Some pf ->
  length tags_data = (n * record_size pf)%nat ->
  Z.of_nat (length tags_data) <= PY_SSIZE_T_MAX ->
  exists tags,
    _tags_from_data host per_type_byte_size self (Z.of_nat n) tags_data = Ok tags /\
    Forall2 (fun r tag => _tag_from_tag_data host per_type_byte_size self r = Ok tag)
      (filter (fun r => known_type per_type_byte_size (field_type bo r))
         (chunks (record_size pf) n tags_data))
      tags.
Proof.
  intros Hbo Hpf Hlen Hfit.
  pose proof (chunks_length (record_size pf) n tags_data Hlen) as Hall.
  destruct (yield_tags_records self bo pf _ Hbo Hpf Hall) as (tags & Hy & Hf).
  exists tags. split; [|exact Hf].
  unfold _tags_from_data, _tag_format, _format.
  rewrite Hpf, Hbo. cbn [getattr obind]. rewrite calcsize_tag_format.
  cbn [obind]. rewrite !Nat2Z.id. unfold unpack.
  rewrite calcsize_fits; unfold total_size; cbn [order items byte_order];
    rewrite size_from_repeat_s, Nat.add_0_l, <- Hlen; [|exact Hfit].
  cbn [obind]. rewrite Z.eqb_refl, unpack_from_repeat_s. exact Hy.
Qed.

(** [_tags_from_data] reads two attributes of the reader only. *)
Lemma tags_from_data_frame (s1 s2 : COGReader) (n : Z) (tags_data : bytes) :
  _byte_order_fmt s1 = _byte_order_fmt s2 ->
  _pointer_fmt s1 = _pointer_fmt s2 ->
  _tags_from_data host per_type_byte_size s1 n tags_data
  = _tags_from_data host per_type_byte_size s2 n tags_data.
Proof.
  intros Hbo Hpf.
  assert (Htag : forall td, _tag_from_tag_data host per_type_byte_size s1 td
                          = _tag_from_tag_data host per_type_byte_size s2 td).
  { intros td. unfold _tag_from_tag_data, _tag_format, _format.
    now rewrite Hbo, Hpf. }
  unfold _tags_from_data, _tag_format, _format. rewrite Hbo, Hpf.
  destruct (_pointer_fmt s2); [|reflexivity]. cbn [getattr obind].
  destruct (_byte_order_fmt s2); [|reflexivity]. cbn [getattr obind].
  destruct (calcsize _) as [size| |]; [|reflexivity|reflexivity]. cbn [obind].
  destruct (unpack _ _ _) as [records| |]; [|reflexivity|reflexivity]. cbn [obind].
  induction records as [|v rest IH]; [reflexivity|]. cbn [yield_tags].
  destruct v as [z|td]; [reflexivity|]. rewrite Htag.
  destruct (_tag_from_tag_data host per_type_byte_size s2 td) as [tag|e|];
    rewrite ?IH; reflexivity.
Qed.

End TagDecoder.

(** ** Reasoning about methods *)

Lemma bind_ok_inv {A B} (m : M A) (k : A -> M B) s b s' :
  bind m k s = (Ok b, s') ->
  exists a s1, m s = (Ok a, s1) /\ k a s1 = (Ok b, s').
Proof.
  unfold bind. destruct (m s) as [[a| |] s1]; try discriminate.
  intros H. now exists a, s1.
Qed.

Lemma bind_ok {A B} (m : M A) (k : A -> M B) s a s' :
  m s = (Ok a, s') -> bind m k s = k a s'.
Proof. intros H. unfold bind. now rewrite H. Qed.

Lemma bind_raise {A B} (m : M A) (k : A -> M B) s e s' :
  m s = (Raise e, s') -> bind m k s = (Raise e, s').
Proof. intros H. unfold bind. now rewrite H. Qed.

Lemma call_ok_inv {A} (f : COGReader -> outcome A) s a s' :
  call f s = (Ok a, s') -> f s = Ok a /\ s' = s.
Proof. unfold call. intros [= H <-]. now split. Qed.

Lemma lift_ok_inv {A} (o : outcome A) s a s' :
  lift o s = (Ok a, s') -> o = Ok a /\ s' = s.
Proof. unfold lift. intros [= H <-]. now split. Qed.


Lemma assign_inv f s r s' :
  assign f s = (r, s') -> r = Ok tt /\ s' = f s.
Proof. unfold assign. intros [= <- <-]. now split. Qed.

Lemma except_AssertionError_caught {A} (m h : M A) s s' :
  m s = (Raise AssertionError, s') -> except_AssertionError m h s = h s'.
Proof. intros H. unfold except_AssertionError. now rewrite H. Qed.

(** Splits a successful run of a sequence of statements into its steps. *)
Ltac inv_ok H :=
  repeat
    match type of H with
    | bind _ _ _ = (Ok _, _) =>
        let a := fresh "a" in
        let s := fresh "s" in
        let E := fresh "E" in
        apply bind_ok_inv in H; destruct H as (a & s & E & H)
    | (match ?x with _ => _ end) _ = (Ok _, _) =>
        destruct x; try (cbv [raise] in H; discriminate H)
    end.

Section Preservation.

Variable net : Transport.
Variable host : ByteOrder.
Variable per_type_byte_size : Z -> option N.
Variable I : COGReader -> Prop.

Lemma preserves_bind {A B} (m : M A) (k : A -> M B) :
  preserves I m -> (forall a, preserves I (k a)) -> preserves I (bind m k).
Proof.
  intros Hm Hk s r s' HI. unfold bind.
  destruct (m s) as [[a| |] s1] eqn:E; specialize (Hm _ _ _ HI E).
  - intros H. exact (Hk a _ _ _ Hm H).
  - now intros [= _ <-].
  - now intros [= _ <-].
Qed.

Lemma preserves_ret {A} (a : A) : preserves I (ret a).
Proof. now intros s r s' HI [= _ <-]. Qed.

Lemma preserves_raise {A} (e : exn) : preserves I (@raise A e).
Proof. now intros s r s' HI [= _ <-]. Qed.

Lemma preserves_call {A} (f : COGReader -> outcome A) : preserves I (call f).
Proof. now intros s r s' HI [= _ <-]. Qed.

Lemma preserves_lift {A} (o : outcome A) : preserves I (lift o).
Proof. now intros s r s' HI [= _ <-]. Qed.

Lemma preserves_assign (f : COGReader -> COGReader) :
  stable_under I f -> preserves I (assign f).
Proof. intros Hf s r s' HI [= _ <-]. now apply Hf. Qed.

Lemma preserves_assert (b : bool) : preserves I (assert_ b).
Proof. destruct b; [apply preserves_ret | apply preserves_raise]. Qed.

Lemma preserves_except {A} (m h : M A) :
  preserves I m -> preserves I h -> preserves I (except_AssertionError m h).
Proof.
  intros Hm Hh s r s' HI. unfold except_AssertionError.
  destruct (m s) as [[a|e|] s1] eqn:E; pose proof (Hm _ _ _ HI E) as HI1.
  - now intros [= _ <-].
  - destruct e; try (now intros [= _ <-]). intros H. exact (Hh _ _ _ HI1 H).
  - now intros [= _ <-].
Qed.

Lemma preserves_read (offset size : Z) :
  stable_request I -> preserves I (_read net offset size).
Proof.
  intros Hst s r s' HI. unfold _read.
  destruct (_client s) as [c|] eqn:Hc; [|now intros [= _ <-]].
  destruct (closed c) eqn:Hcl; [now intros [= _ <-]|].
  pose proof (Hst s c (offset, offset + size - 1) HI Hc Hcl) as HI'.
  destruct (net _) as [resp|]; [destruct (ok resp)|]; now intros [= _ <-].
Qed.

Ltac preserve :=
  repeat first
    [ apply preserves_ret | apply preserves_raise | apply preserves_call
    | apply preserves_lift | apply preserves_assert
    | apply preserves_read; assumption
    | apply preserves_assign; solve [auto]
    | apply preserves_bind; [|intros ?]
    | match goal with
      | |- preserves _ (match ?x with _ => _ end) => destruct x
      end ].

Lemma preserves_read_first_header :
  stable_request I ->
  (forall bo, stable_under I (set_byte_order_fmt bo)) ->
  (forall v, stable_under I (set_version v)) ->
  preserves I (_read_first_header net host).
Proof. intros Hst Hbo Hv. unfold _read_first_header. preserve. Qed.



Lemma preserves_read_header :
  stable_request I ->
  (forall bo, stable_under I (set_byte_order_fmt bo)) ->
  (forall v, stable_under I (set_version v)) ->
  (forall pf, stable_under I (set_pointer_fmt pf)) ->
  (forall nf, stable_under I (set_n_fmt nf)) ->
  (forall p, stable_under I (set_first_ifd_pointer p)) ->
  preserves I (_read_header net host).
Proof.
  intros Hst Hbo Hv Hpf Hnf Hp.
  unfold _read_header, _read_first_header, _read_second_header,
    _read_bigtiff_second_header.
  preserve.
Qed.

Lemma preserves_read_ifd (p : Z) :
  stable_request I -> preserves I (_read_ifd net host per_type_byte_size p).
Proof. intros Hst. unfold _read_ifd. preserve. Qed.

Lemma preserves_read_idfs_loop (fuel : nat) :
  stable_request I -> (forall d, stable_under I (append_ifd d)) ->
  forall p, preserves I (_read_idfs_loop net host per_type_byte_size fuel p).
Proof.
  intros Hst Happ. induction fuel as [|fuel IH]; intros p; cbn [_read_idfs_loop].
  - destruct (p >? 0); [now intros s r s' HI [= _ <-] | apply preserves_ret].
  - destruct (p >? 0); [|apply preserves_ret].
    apply preserves_bind; [now apply preserves_read_ifd|intros d].
    apply preserves_bind; [now apply preserves_assign|intros _]. apply IH.
Qed.

Lemma preserves_read_idfs (fuel : nat) :
  stable_request I -> (forall d, stable_under I (append_ifd d)) ->
  preserves I (_read_idfs net host per_type_byte_size fuel).
Proof.
  intros Hst Happ. unfold _read_idfs.
  apply preserves_bind; [apply preserves_call|intros p].
  now apply preserves_read_idfs_loop.
Qed.

End Preservation.




Lemma session_open_stable_request : stable_request session_open.
Proof.
  intros s c r _ _ Hcl. exists (record_request r c). split; [reflexivity|exact Hcl].
Qed.

(** ** The byte-range fetch and the header decoder *)

Lemma marker_order_II (m : bytes) : m = b_II -> marker_order m = Some Little.
Proof. intros ->. reflexivity. Qed.

Lemma marker_order_MM (m : bytes) : m = b_MM -> marker_order m = Some Big.
Proof. intros ->. reflexivity. Qed.

Lemma marker_order_other (m : bytes) :
  m <> b_II -> m <> b_MM -> marker_order m = None.
Proof.
  intros H1 H2. unfold marker_order.
  destruct (bytes_eq_dec m b_II); [contradiction|].
  destruct (bytes_eq_dec m b_MM); [contradiction|reflexivity].
Qed.

Section Header.

Variable net : Transport.
Variable host : ByteOrder.
Variable per_type_byte_size : Z -> option N.

Lemma read_eq s c offset size :
  _client s = Some c -> closed c = false ->
  _read net offset size s
  = (match net (offset, offset + size - 1) with
     | None => Raise ClientError
     | Some response =>
         if ok response then Ok (body response) else Raise AssertionError
     end,
     after_request (offset, offset + size - 1) c s).
Proof.
  intros Hc Hcl. unfold _read. rewrite Hc, Hcl.
  destruct (net _) as [resp|]; [destruct (ok resp)|]; reflexivity.
Qed.

(** C8, as amended: a fetch sends one range request and fails when the
    request cannot be performed or the status of the response is not OK;
    otherwise it returns the body of the response as it is, whatever its
    length. A body of another length than the format asks for is refused by
    the [unpack] that follows, not by the fetch. *)
Theorem fetch_checks_status_only s c offset size :
  _client s = Some c -> closed c = false ->
  fst (_read net offset size s)
  = match net (offset, offset + size - 1) with
    | None => Raise ClientError
    | Some response =>
        if ok response then Ok (body response) else Raise AssertionError
    end /\
  requests (snd (_read net offset size s)) = sent c ++ [(offset, offset + size - 1)] /\
  forall f data,
    fst (_read net offset size s) = Ok data ->
    calcsize f <> Ok (Z.of_nat (length data)) ->
    unpack host f data = Raise StructError.
Proof.
  intros Hc Hcl. rewrite (read_eq s c offset size Hc Hcl). cbn [fst snd].
  split; [reflexivity|]. split; [reflexivity|].
  intros f data _. apply unpack_wrong_size.
Qed.

Lemma read_first_header_run s c data :
  _client s = Some c -> closed c = false ->
  net (0, 3) = Some {| ok := true; body := data |} ->
  length data = 4%nat ->
  _read_first_header net host s
  = match marker_order (firstn 2 data) with
    | None => (Raise AssertionError, after_request (0, 3) c s)
    | Some bo =>
        let version := decode bo (skipn 2 data) in
        (if (version =? 42) || (version =? 43) then Ok tt else Raise AssertionError,
         set_version version (set_byte_order_fmt bo (after_request (0, 3) c s)))
    end.
Proof.
  intros Hc Hcl Hnet Hlen. unfold _read_first_header.
  rewrite (bind_ok _ _ s data (after_request (0, 3) c s))
    by (rewrite (read_eq s c 0 4 Hc Hcl); cbn; now rewrite Hnet).
  explode_bytes data 4.
  assert (U1 : unpack host (Format None [(2%nat, c_s); (2%nat, c_x)]) [b; b0; b1; b2]
               = Ok [VBytes [b; b0]]) by reflexivity.
  assert (U2 : forall bo,
             unpack host (Format (Some bo) [(2%nat, c_x); (1%nat, c_H)]) [b; b0; b1; b2]
             = Ok [VInt (decode bo [b1; b2])]) by reflexivity.
  unfold marker_order. cbn [firstn skipn].
  cbv [bind lift call assign]. rewrite U1.
  destruct (bytes_eq_dec [b; b0] b_II) as [_|_].
  - cbn [_format getattr obind _byte_order_fmt set_byte_order_fmt]. rewrite U2.
    cbv zeta. destruct (_ || _); reflexivity.
  - destruct (bytes_eq_dec [b; b0] b_MM) as [_|_]; [|reflexivity].
    cbn [_format getattr obind _byte_order_fmt set_byte_order_fmt]. rewrite U2.
    cbv zeta. destruct (_ || _); reflexivity.
Qed.

Lemma read_second_header_run s c bo pf data :
  _client s = Some c -> closed c = false ->
  _byte_order_fmt s = Some bo -> _pointer_fmt s = Some pf ->
  net (4, 4 + Z.of_nat (pointer_size pf) - 1) = Some {| ok := true; body := data |} ->
  length data = pointer_size pf ->
  _read_second_header net host s
  = (Ok tt,
     set_first_ifd_pointer (decode bo data)
       (after_request (4, 4 + Z.of_nat (pointer_size pf) - 1) c s)).
Proof.
  intros Hc Hcl Hbo Hpf Hnet Hlen. unfold _read_second_header.
  unfold bind at 1, call at 1. cbv beta. rewrite Hpf. cbn [getattr obind].
  unfold _format. rewrite Hbo. cbn [getattr obind].
  rewrite calcsize_pointer_format. unfold bind at 1, lift at 1. cbn [obind].
  rewrite (bind_ok _ _ s data (after_request (4, 4 + Z.of_nat (pointer_size pf) - 1) c s))
    by (rewrite (read_eq s c _ _ Hc Hcl); now rewrite Hnet).
  destruct pf; cbn in Hlen.
  - explode_bytes data 4. reflexivity.
  - explode_bytes data 8. reflexivity.
Qed.

Lemma read_bigtiff_second_header_run s c bo data :
  _client s = Some c -> closed c = false ->
  _byte_order_fmt s = Some bo ->
  net (4, 15) = Some {| ok := true; body := data |} ->
  length data = 12%nat ->
  _read_bigtiff_second_header net host s
  = (if decode bo (firstn 2 data) =? 8
     then if decode bo (firstn 2 (skipn 2 data)) =? 0
          then Ok tt else Raise AssertionError
     else Raise AssertionError,
     set_first_ifd_pointer (decode bo (skipn 4 data)) (after_request (4, 15) c s)).
Proof.
  intros Hc Hcl Hbo Hnet Hlen. unfold _read_bigtiff_second_header.
  unfold bind at 1, call at 1, _format. cbv beta. rewrite Hbo. cbn [getattr obind].
  change (calcsize (Format (Some bo) [(1%nat, c_H); (1%nat, c_H); (1%nat, c_Q)]))
    with (@Ok Z 12).
  unfold bind at 1, lift at 1. cbn [obind].
  rewrite (bind_ok _ _ s data (after_request (4, 15) c s))
    by (rewrite (read_eq s c 4 12 Hc Hcl); cbn; now rewrite Hnet).
  explode_bytes data 12.
  assert (U : unpack host (Format (Some bo) [(1%nat, c_H); (1%nat, c_H); (1%nat, c_Q)])
                [b; b0; b1; b2; b3; b4; b5; b6; b7; b8; b9; b10]
              = Ok [VInt (decode bo [b; b0]); VInt (decode bo [b1; b2]);
                    VInt (decode bo [b3; b4; b5; b6; b7; b8; b9; b10])])
    by reflexivity.
  cbv [bind lift assign]. rewrite U. cbn [firstn skipn].
  destruct (decode bo [b; b0] =? 8); [|reflexivity].
  destruct (decode bo [b1; b2] =? 0); reflexivity.
Qed.

Lemma read_header_bigtiff_run s c data :
  _client s = Some c -> closed c = false ->
  net (0, 3) = Some {| ok := true; body := octets [77; 77; 0; 43] |} ->
  net (4, 15) = Some {| ok := true; body := data |} ->
  length data = 12%nat ->
  _read_header net host s
  = (if decode Big (firstn 2 data) =? 8
     then if decode Big (firstn 2 (skipn 2 data)) =? 0
          then Ok tt else Raise AssertionError
     else Raise AssertionError,
     set_first_ifd_pointer (decode Big (skipn 4 data))
       (after_request (4, 15) (record_request (0, 3) c)
          (set_n_fmt n_Q
             (set_pointer_fmt ptr_Q
                (set_version 43
                   (set_byte_order_fmt Big (after_request (0, 3) c s))))))).
Proof.
  intros Hc Hcl Hnet1 Hnet2 Hlen. unfold _read_header.
  rewrite (bind_ok _ _ _ _ _
             (read_first_header_run s c _ Hc Hcl Hnet1 eq_refl)).
  cbv [bind call assign]. cbn [is_bigtiff getattr obind _version set_version].
  cbn [Z.eqb Pos.eqb].
  apply (read_bigtiff_second_header_run _ (record_request (0, 3) c) Big data);
    try reflexivity; assumption.
Qed.

Lemma read_header_bad_marker s c data :
  _client s = Some c -> closed c = false ->
  net (0, 3) = Some {| ok := true; body := data |} ->
  length data = 4%nat ->
  marker_order (firstn 2 data) = None ->
  _read_header net host s = (Raise AssertionError, after_request (0, 3) c s).
Proof.
  intros Hc Hcl Hnet Hlen Hm. unfold _read_header. apply bind_raise.
  rewrite (read_first_header_run s c data Hc Hcl Hnet Hlen), Hm.
  reflexivity.
Qed.

(** An [AssertionError] of the header decoder leaves [__aenter__] as the
    invalid-format error. *)
Lemma aenter_malformed_header fuel s0 s' :
  _read_header net host (set_client new_ClientSession s0) = (Raise AssertionError, s') ->
  __aenter__ net host per_type_byte_size fuel s0
  = (Raise (ValueError "Invalid file format"), s').
Proof.
  intros H. unfold __aenter__.
  rewrite (bind_ok _ _ s0 tt (set_client new_ClientSession s0)) by reflexivity.
  rewrite (except_AssertionError_caught _ _ _ s'); [reflexivity|].
  now apply bind_raise.
Qed.

(** C5: the two-byte marker selects the byte order, "II" little-endian and
    "MM" big-endian; any other marker fails the header decoder, and the
    session with it as an invalid-format error. The header "II", version 42,
    offset 8 decodes to little-endian, classic, first directory at 8. *)
Theorem header_selects_byte_order s c data :
  _client s = Some c -> closed c = false ->
  net (0, 3) = Some {| ok := true; body := data |} ->
  length data = 4%nat ->
  (firstn 2 data = b_II ->
   _byte_order_fmt (snd (_read_first_header net host s)) = Some Little) /\
  (firstn 2 data = b_MM ->
   _byte_order_fmt (snd (_read_first_header net host s)) = Some Big) /\
  (firstn 2 data <> b_II -> firstn 2 data <> b_MM ->
   fst (_read_first_header net host s) = Raise AssertionError /\
   forall fuel s0,
     fst (__aenter__ net host per_type_byte_size fuel s0)
     = Raise (ValueError "Invalid file format")) /\
  (data = octets [73; 73; 42; 0] ->
   net (4, 7) = Some {| ok := true; body := octets [8; 0; 0; 0] |} ->
   exists s',
     _read_header net host s = (Ok tt, s') /\
     _byte_order_fmt s' = Some Little /\
     _version s' = Some 42 /\
     is_bigtiff s' = Ok false /\
     _first_ifd_pointer s' = Some 8).
Proof.
  intros Hc Hcl Hnet Hlen.
  pose proof (read_first_header_run s c data Hc Hcl Hnet Hlen) as Hrun.
  split; [|split; [|split]].
  - intros Hm. rewrite Hrun, (marker_order_II _ Hm). reflexivity.
  - intros Hm. rewrite Hrun, (marker_order_MM _ Hm). reflexivity.
  - intros H1 H2. pose proof (marker_order_other _ H1 H2) as Hm.
    split; [rewrite Hrun, Hm; reflexivity|].
    intros fuel s0.
    erewrite aenter_malformed_header; [reflexivity|].
    now apply (read_header_bad_marker _ new_ClientSession data).
  - intros -> Hnet2. eexists. split.
    + unfold _read_header.
      rewrite (bind_ok _ _ _ _ _ Hrun).
      cbv [bind call assign]. cbn [is_bigtiff getattr obind _version set_version].
      cbn [Z.eqb Pos.eqb].
      apply (read_second_header_run _ (record_request (0, 3) c) Little ptr_I
               (octets [8; 0; 0; 0])); try reflexivity; assumption.
    + repeat split.
Qed.

(** C6, as amended: the extended second header is one request of 12 bytes
    at offset 4, laid out as a 2-byte pointer size, a 2-byte reserved field
    and an 8-byte first-directory offset. The decoder fails unless the
    pointer size is 8 and the reserved field is 0, and otherwise keeps the
    8-byte field as the first-directory offset. After the first header "MM",
    version 43: with pointer size 8 and reserved 0 the header decodes to
    big-endian, extended, and the offset in the 8-byte field; with any other
    pointer size or reserved field the session fails as an invalid-format
    error. *)
Theorem extended_header_is_checked s c bo data :
  _client s = Some c -> closed c = false ->
  _byte_order_fmt s = Some bo ->
  net (4, 15) = Some {| ok := true; body := data |} ->
  length data = 12%nat ->
  let r := _read_bigtiff_second_header net host s in
  requests (snd r) = sent c ++ [(4, 15)] /\
  range_length (4, 15) = 12 /\
  (decode bo (firstn 2 data) = 8 -> decode bo (firstn 2 (skipn 2 data)) = 0 ->
   fst r = Ok tt /\
   _first_ifd_pointer (snd r) = Some (decode bo (skipn 4 data))) /\
  (decode bo (firstn 2 data) <> 8 \/ decode bo (firstn 2 (skipn 2 data)) <> 0 ->
   fst r = Raise AssertionError) /\
  (net (0, 3) = Some {| ok := true; body := octets [77; 77; 0; 43] |} ->
   (decode Big (firstn 2 data) = 8 -> decode Big (firstn 2 (skipn 2 data)) = 0 ->
    forall s0 c0,
      _client s0 = Some c0 -> closed c0 = false ->
      exists s',
        _read_header net host s0 = (Ok tt, s') /\
        _byte_order_fmt s' = Some Big /\
        _version s' = Some 43 /\
        is_bigtiff s' = Ok true /\
        _first_ifd_pointer s' = Some (decode Big (skipn 4 data))) /\
   (decode Big (firstn 2 data) <> 8 \/ decode Big (firstn 2 (skipn 2 data)) <> 0 ->
    forall fuel s0,
      fst (__aenter__ net host per_type_byte_size fuel s0)
      = Raise (ValueError "Invalid file format"))).
Proof.
  intros Hc Hcl Hbo Hnet Hlen r.
  pose proof (read_bigtiff_second_header_run s c bo data Hc Hcl Hbo Hnet Hlen) as Hrun.
  subst r.
  split; [rewrite Hrun; reflexivity|]. split; [reflexivity|].
  split; [|split].
  - intros H8 H0. rewrite Hrun, H8, H0. split; reflexivity.
  - intros Hbad. rewrite Hrun. cbn [fst].
    destruct (Z.eqb_spec (decode bo (firstn 2 data)) 8); [|reflexivity].
    destruct (Z.eqb_spec (decode bo (firstn 2 (skipn 2 data))) 0); [|reflexivity].
    lia.
  - intros Hnet0. split.
    + intros H8 H0 s0 c0 Hc0 Hcl0.
      rewrite (read_header_bigtiff_run s0 c0 data Hc0 Hcl0 Hnet0 Hnet Hlen), H8, H0.
      eexists. split; [reflexivity|]. repeat split.
    + intros Hbad fuel s0.
      erewrite aenter_malformed_header; [reflexivity|].
      rewrite (read_header_bigtiff_run (set_client new_ClientSession s0)
                 new_ClientSession data eq_refl eq_refl Hnet0 Hnet Hlen).
      destruct (Z.eqb_spec (decode Big (firstn 2 data)) 8); [|reflexivity].
      destruct (Z.eqb_spec (decode Big (firstn 2 (skipn 2 data))) 0); [|reflexivity].
      lia.
Qed.



End Header.

(** ** The directory decoder *)

Section Directory.

Variable net : Transport.
Variable host : ByteOrder.
Variable per_type_byte_size : Z -> option N.

Lemma read_ifd_ok_shape p s d s' :
  _read_ifd net host per_type_byte_size p s = (Ok d, s') ->
  ifd.offset d = p /\ 0 <= ifd.next_ifd_pointer d /\ 0 <= ifd.n_tags d.
Proof.
  intros H. unfold _read_ifd in H.
  apply bind_ok_inv in H as (n_format_str & s1 & _ & H).
  apply bind_ok_inv in H as (n_size & s1' & _ & H).
  apply bind_ok_inv in H as (n_data & s2 & _ & H).
  apply bind_ok_inv in H as (vals & s3 & Hn & H).
  apply lift_ok_inv in Hn as [Hn _]. apply unpack_nonneg in Hn.
  destruct vals as [|[n_tags|] [|]]; try (cbv [raise] in H; discriminate H).
  apply bind_ok_inv in H as (tag_format & s4 & _ & H).
  apply bind_ok_inv in H as (tag_size & s4' & _ & H).
  apply bind_ok_inv in H as (n_size' & s4'' & _ & H).
  apply bind_ok_inv in H as (ifd_format_str & s5 & _ & H).
  apply bind_ok_inv in H as (ifd_size & s5' & _ & H).
  apply bind_ok_inv in H as (ifd_data & s6 & _ & H).
  apply bind_ok_inv in H as (vals & s7 & Hp & H).
  apply lift_ok_inv in Hp as [Hp _]. apply unpack_nonneg in Hp.
  destruct vals as [|[|tags_data] [|[pointer|] [|]]];
    try (cbv [raise] in H; discriminate H).
  apply bind_ok_inv in H as (tags & s8 & _ & H).
  injection H as <- _.
  cbn [ifd.offset ifd.next_ifd_pointer ifd.n_tags].
  inversion Hn as [|? ? Hn0 _]. inversion Hp as [|? ? _ Hp']. inversion Hp' as [|? ? Hp0 _].
  cbn in Hn0, Hp0. auto.
Qed.

Lemma read_ifd_keeps_ifds p s r s' :
  _read_ifd net host per_type_byte_size p s = (r, s') -> _ifds s' = _ifds s.
Proof.
  intros H.
  apply (preserves_read_ifd net host per_type_byte_size (ifds_are (_ifds s)) p)
    with (s := s) (r := r).
  - intros s0 c rq H0 _ _. exact H0.
  - reflexivity.
  - exact H.
Qed.

(** When both range responses have the size asked for, the directory at
    [p] is decoded, whatever its tags are. *)
Lemma read_ifd_run p s c bo pf nf n_data ifd_data :
  _client s = Some c -> closed c = false ->
  _byte_order_fmt s = Some bo -> _pointer_fmt s = Some pf -> _n_fmt s = Some nf ->
  let cw := Z.of_nat (count_size nf) in
  let r1 : Range := (p, p + cw - 1) in
  net r1 = Some {| ok := true; body := n_data |} ->
  length n_data = count_size nf ->
  let n := Z.to_nat (decode bo n_data) in
  let tags_len := (n * record_size pf)%nat in
  let r2 : Range := (p + cw, p + cw + Z.of_nat (tags_len + pointer_size pf) - 1) in
  net r2 = Some {| ok := true; body := ifd_data |} ->
  length ifd_data = (tags_len + pointer_size pf)%nat ->
  exists tags,
    _tags_from_data host per_type_byte_size s (decode bo n_data)
      (firstn tags_len ifd_data) = Ok tags /\
    _read_ifd net host per_type_byte_size p s
    = (Ok {| ifd.offset := p; ifd.n_tags := decode bo n_data;
             ifd.next_ifd_pointer := decode bo (skipn tags_len ifd_data);
             ifd.tags := tags |},
       after_request r2 (record_request r1 c) (after_request r1 c s)).
Proof.
  intros Hc Hcl Hbo Hpf Hnf cw r1 Hnet1 Hlen1 n tags_len r2 Hnet2 Hlen2.
  pose proof (decode_bound bo n_data) as [Hn0 _].
  assert (Hn : Z.of_nat n = decode bo n_data) by (unfold n; lia).
  assert (Htl : length (firstn tags_len ifd_data) = (n * record_size pf)%nat)
    by (rewrite length_firstn; lia).
  pose proof (body_fits net r2 _ Hnet2) as Hfit. cbn [body] in Hfit.
  assert (Hfit' : Z.of_nat (length (firstn tags_len ifd_data)) <= PY_SSIZE_T_MAX)
    by (rewrite length_firstn; lia).
  destruct (tags_from_data_run host per_type_byte_size s bo pf n _ Hbo Hpf Htl Hfit')
    as (tags & Htags & _).
  rewrite Hn in Htags.
  exists tags. split; [exact Htags|].
  unfold _read_ifd.
  unfold bind at 1, call at 1. cbv beta. rewrite Hnf. cbn [getattr obind].
  unfold _format at 1. rewrite Hbo. cbn [getattr obind].
  rewrite calcsize_n_format. unfold bind at 1, lift at 1. cbn [obind]. fold cw.
  rewrite (bind_ok _ _ s n_data (after_request r1 c s))
    by (rewrite (read_eq net s c _ _ Hc Hcl); fold r1; now rewrite Hnet1).
  unfold bind at 1, lift at 1. rewrite (unpack_n_format host bo nf n_data Hlen1).
  unfold bind at 1, call at 1, _tag_format, _format. cbv beta.
  cbn [after_request set_client _pointer_fmt _byte_order_fmt].
  rewrite Hpf, Hbo. cbn [getattr obind].
  rewrite calcsize_tag_format. unfold bind at 1, lift at 1. cbn [obind].
  unfold bind at 1, lift at 1. cbn [obind].
  replace (Z.to_nat (decode bo n_data * Z.of_nat (record_size pf))) with tags_len
    by (unfold tags_len; rewrite <- Hn; lia).
  unfold bind at 1, call at 1. cbv beta.
  cbn [after_request set_client _pointer_fmt _byte_order_fmt].
  rewrite Hpf, Hbo. cbn [getattr obind].
  rewrite calcsize_ifd_format by (rewrite <- Hlen2; exact Hfit).
  unfold bind at 1, lift at 1. cbn [obind].
  rewrite (bind_ok _ _ _ ifd_data
             (after_request r2 (record_request r1 c) (after_request r1 c s))).
  2:{ rewrite (read_eq net _ (record_request r1 c)); [|reflexivity|exact Hcl].
      fold r2. now rewrite Hnet2. }
  unfold bind at 1, lift at 1.
  rewrite (unpack_ifd_format host bo pf tags_len ifd_data Hlen2 Hfit).
  unfold bind at 1, call at 1. cbv beta.
  rewrite (tags_from_data_frame host per_type_byte_size _ s) by reflexivity.
  rewrite Htags. reflexivity.
Qed.


(** C10: the next-directory offset of every decoded directory is the value
    of an unsigned field, so it is never negative; the test [pointer > 0] of
    the walker fails exactly when the offset is 0, in which case the walk
    stops, and otherwise the walker reads the directory at that offset. *)
Theorem next_pointer_is_unsigned p s d s' :
  _read_ifd net host per_type_byte_size p s = (Ok d, s') ->
  0 <= ifd.next_ifd_pointer d /\
  ((ifd.next_ifd_pointer d >? 0) = false <-> ifd.next_ifd_pointer d = 0) /\
  (forall fuel,
      ifd.next_ifd_pointer d <> 0 ->
      _read_idfs_loop net host per_type_byte_size (S fuel) (ifd.next_ifd_pointer d)
      = (d' <- _read_ifd net host per_type_byte_size (ifd.next_ifd_pointer d) ;;
         assign (append_ifd d') ;;;
         _read_idfs_loop net host per_type_byte_size fuel (ifd.next_ifd_pointer d'))) /\
  (forall fuel,
      ifd.next_ifd_pointer d = 0 ->
      _read_idfs_loop net host per_type_byte_size fuel (ifd.next_ifd_pointer d) = ret tt).
Proof.
  intros H. destruct (read_ifd_ok_shape p s d s' H) as (_ & Hnext & _).
  split; [exact Hnext|]. split; [|split].
  - rewrite Z.gtb_ltb, Z.ltb_ge. lia.
  - intros fuel Hne. cbn [_read_idfs_loop].
    assert ((ifd.next_ifd_pointer d >? 0) = true) as -> by (apply Z.gtb_lt; lia).
    reflexivity.
  - intros fuel ->. destruct fuel; reflexivity.
Qed.

(** ** The directory chain walker *)

Lemma chain_linked :
  forall ds s p s',
    chain net host per_type_byte_size s p ds s' ->
    linked p ds /\ _ifds s' = _ifds s ++ ds.
Proof.
  induction ds as [|d rest IH]; intros s p s'; cbn [chain linked].
  - intros [Hp ->]. split; [exact Hp | now rewrite app_nil_r].
  - intros (Hp & Hd & Hrest).
    destruct (_read_ifd net host per_type_byte_size p s) as [r s1] eqn:E.
    cbn [fst snd] in Hd, Hrest. subst r.
    destruct (read_ifd_ok_shape p s d s1 E) as (Hoff & Hnext & _).
    destruct (IH _ _ _ Hrest) as [Hl Hifds].
    split; [auto|].
    rewrite Hifds. cbn [append_ifd _ifds].
    rewrite (read_ifd_keeps_ifds p s _ s1 E), <- app_assoc. reflexivity.
Qed.


(** Every walk that returns followed a chain. *)
Lemma run_chain :
  forall fuel s p s',
    _read_idfs_loop net host per_type_byte_size fuel p s = (Ok tt, s') ->
    exists ds, (length ds <= fuel)%nat /\ chain net host per_type_byte_size s p ds s'.
Proof.
  induction fuel as [|fuel IH]; intros s p s' H; cbn [_read_idfs_loop] in H.
  - destruct (p >? 0) eqn:Hgt; [discriminate|].
    injection H as <-. exists []. split; [reflexivity|]. cbn.
    rewrite Z.gtb_ltb in Hgt. apply Z.ltb_ge in Hgt. split; [lia|reflexivity].
  - destruct (p >? 0) eqn:Hgt.
    + apply bind_ok_inv in H as (d & s1 & E & H).
      apply bind_ok_inv in H as (? & s2 & E2 & H). apply assign_inv in E2 as [_ ->].
      destruct (IH _ _ _ H) as (ds & Hlen & Hch).
      exists (d :: ds). split; [cbn; lia|]. cbn [chain]. rewrite E. cbn [fst snd].
      apply Z.gtb_lt in Hgt. repeat split; [lia | exact Hch].
    + injection H as <-. exists []. split; [cbn; lia|]. cbn.
      rewrite Z.gtb_ltb in Hgt. apply Z.ltb_ge in Hgt. split; [lia|reflexivity].
Qed.



(** ** The session *)

(** Nothing in [__aenter__] closes the session it opened. *)
Lemma aenter_leaves_session_open fuel s r s' :
  __aenter__ net host per_type_byte_size fuel s = (r, s') -> session_open s'.
Proof.
  unfold __aenter__.
  rewrite (bind_ok _ _ s tt (set_client new_ClientSession s)) by reflexivity.
  apply preserves_except.
  - apply preserves_bind; [|intros _].
    + apply preserves_read_header; try (intros ? ? H; exact H).
      apply session_open_stable_request.
    + apply preserves_read_idfs; [apply session_open_stable_request|].
      intros ? ? H; exact H.
  - apply preserves_raise.
  - exists new_ClientSession. split; reflexivity.
Qed.

(** C9 fails on the failure paths: when [__aenter__] raises, the [async
    with] statement is left with that exception, [__aexit__] is not run,
    and the session that [__aenter__] opened is still open. *)
Theorem aenter_failure_leaks_session {A} fuel url (block : M A) e s' :
  __aenter__ net host per_type_byte_size fuel (__init__ url) = (Raise e, s') ->
  async_with net host per_type_byte_size fuel url block = (Raise e, s') /\
  session_open s'.
Proof.
  intros H. split.
  - unfold async_with. now rewrite H.
  - exact (aenter_leaves_session_open _ _ _ _ H).
Qed.

(** X16: on the path where [__aenter__] returns, leaving the block closes
    the session, whether the block returned or raised, as long as the block
    did not remove the session attribute. *)
Lemma async_with_success_closes {A} fuel url (block : M A) u s1 :
  __aenter__ net host per_type_byte_size fuel (__init__ url) = (Ok u, s1) ->
  preserves (fun s => _client s <> None) block ->
  exists c,
    _client (snd (async_with net host per_type_byte_size fuel url block)) = Some c /\
    closed c = true.
Proof.
  intros H Hb. unfold async_with. rewrite H.
  destruct (aenter_leaves_session_open _ _ _ _ H) as (c1 & Hc1 & _).
  destruct (block s1) as [res s2] eqn:E.
  assert (Hs2 : _client s2 <> None) by (apply (Hb s1 res s2); [congruence | exact E]).
  unfold __aexit__. destruct (_client s2) as [c2|]; [|contradiction].
  exists (close c2). split; reflexivity.
Qed.

End Directory.

(** ** Scenarios *)

(** C2 fails on the code: a big-endian classic file read on a little-endian
    host. The record (code 256, type 3, count 1, value 512) is decoded as
    inline, with no pointer, but its inline value is the two bytes 00 00
    where the slot of the record starts with 02 00: the slot's integer is
    packed again in the byte order of the host, not of the file. *)
Theorem inline_value_wrong_for_foreign_byte_order :
  exists tag,
    _tag_from_tag_data Little sample_types (classic_reader Big) big_endian_record
    = Ok tag /\
    ifd.pointer tag = None /\
    ifd.data tag = Some (octets [0; 0]) /\
    firstn 2 (value_slot ptr_I big_endian_record) = octets [2; 0] /\
    ifd.data tag <> Some (firstn 2 (value_slot ptr_I big_endian_record)).
Proof.
  eexists. split; [vm_compute; reflexivity|].
  repeat split; try reflexivity. vm_compute. discriminate.
Qed.

(** On either host there is a byte order of the file for which the inline
    value is not the bytes of the slot. *)
Lemma inline_value_wrong_on_every_host (host : ByteOrder) :
  exists bo td tag,
    _tag_from_tag_data host sample_types (classic_reader bo) td = Ok tag /\
    ifd.data tag <> Some (firstn 2 (value_slot ptr_I td)).
Proof.
  destruct host.
  - exists Big, big_endian_record. eexists. split; [vm_compute; reflexivity|].
    vm_compute. discriminate.
  - exists Little, little_endian_record. eexists. split; [vm_compute; reflexivity|].
    vm_compute. discriminate.
Qed.

(** The scenario of a directory at offset 100 with the one tag (code 256,
    type 3, count 1, value 512), for a little-endian file on a little-endian
    host: the tag is inline with the 2-byte value 512 and no pointer. *)
Example classic_tag_scenario :
  fst (_read_ifd (range_server classic_file) Little sample_types 100
         (classic_reader Little))
  = Ok {| ifd.offset := 100; ifd.n_tags := 1; ifd.next_ifd_pointer := 0;
          ifd.tags := [ {| ifd.code := 256; ifd.type := 3; ifd.n_values := 1;
                           ifd.pointer := None;
                           ifd.data := Some (encode Little 2 512) |} ] |}.
Proof. vm_compute. reflexivity. Qed.

Lemma tag_inline_xor_pointer_witness :
  _tag_from_tag_data Little sample_types (classic_reader Little) little_endian_record
  = Ok image_width_tag /\
  exists pf size pointer_width,
    _pointer_fmt (classic_reader Little) = Some pf /\
    calcsize (Format None [(1%nat, pointer_code pf)]) = Ok pointer_width /\
    ifd.data_size sample_types image_width_tag = Ok size /\
    (size <= pointer_width ->
     ifd.pointer image_width_tag = None /\
     exists d, ifd.data image_width_tag = Some d /\ Z.of_nat (length d) = size) /\
    (size > pointer_width ->
     ifd.data image_width_tag = None /\ exists p, ifd.pointer image_width_tag = Some p) /\
    (ifd.n_values image_width_tag = 0 ->
     ifd.pointer image_width_tag = None /\ ifd.data image_width_tag = Some []).
Proof.
  split; [vm_compute; reflexivity|].
  apply (tag_inline_xor_pointer Little sample_types (classic_reader Little)
           little_endian_record image_width_tag).
  vm_compute; reflexivity.
Defined.



(** The whole session on that file: both directories are decoded. *)
Example unknown_type_does_not_stop_the_walk :
  fst (__aenter__ (range_server unknown_type_file) Little sample_types 2
         (__init__ "cog.tif")) = Ok tt /\
  map (fun d => (ifd.offset d, ifd.n_tags d, length (ifd.tags d)))
    (_ifds (after_walk unknown_type_file Little 2))
  = [(8, 2, 1%nat); (38, 1, 1%nat)].
Proof. split; vm_compute; reflexivity. Qed.

Lemma header_selects_byte_order_witness :
  exists s',
    _read_header (range_server two_directories) Little fresh_reader = (Ok tt, s') /\
    _byte_order_fmt s' = Some Little /\
    _version s' = Some 42 /\
    is_bigtiff s' = Ok false /\
    _first_ifd_pointer s' = Some 8.
Proof.
  destruct (header_selects_byte_order (range_server two_directories) Little sample_types
              fresh_reader new_ClientSession (octets [73; 73; 42; 0])
              eq_refl eq_refl eq_refl eq_refl) as (_ & _ & _ & H).
  exact (H eq_refl eq_refl).
Defined.

Lemma extended_header_is_checked_witness :
  exists s',
    _read_header (range_server bigtiff_file) Little fresh_reader = (Ok tt, s') /\
    _byte_order_fmt s' = Some Big /\
    _version s' = Some 43 /\
    is_bigtiff s' = Ok true /\
    _first_ifd_pointer s' = Some 16.
Proof.
  destruct (extended_header_is_checked (range_server bigtiff_file) Little sample_types
              (set_byte_order_fmt Big fresh_reader) new_ClientSession Big
              (octets [0; 8; 0; 0; 0; 0; 0; 0; 0; 0; 0; 16])
              eq_refl eq_refl eq_refl eq_refl eq_refl) as (_ & _ & _ & _ & H).
  destruct (H eq_refl) as [Hok _].
  exact (Hok eq_refl eq_refl fresh_reader new_ClientSession eq_refl eq_refl).
Defined.

(** The same header with pointer size 4 is refused. *)
Example bigtiff_pointer_size_4_is_refused :
  fst (__aenter__ (range_server bigtiff_pointer_size_4) Little sample_types 2
         (__init__ "cog.tif")) = Raise (ValueError "Invalid file format").
Proof. vm_compute. reflexivity. Qed.

(** C6 as stated fails: the request of the extended second header is the
    range 4-15, 12 bytes, not 8. *)
Lemma extended_header_fetches_12_not_8 :
  ~ extended_header_fetches 8 (range_server bigtiff_file) Little
      (set_byte_order_fmt Big fresh_reader).
Proof.
  intros H.
  destruct (H tt _ eq_refl) as (r & Hreq & _ & Hlen).
  vm_compute in Hreq. injection Hreq as <-. discriminate Hlen.
Qed.

(** A source that has only 8 bytes after the first header does not decode. *)
Example extended_header_of_8_bytes_fails :
  fst (__aenter__ (range_server bigtiff_cut_at_12) Little sample_types 2
         (__init__ "cog.tif")) = Raise StructError.
Proof. vm_compute. reflexivity. Qed.

Lemma fetch_checks_status_only_witness :
  fst (_read (range_server short_file) 4 4 fresh_reader) = Ok (octets [8; 0]).
Proof.
  destruct (fetch_checks_status_only (range_server short_file) Little fresh_reader
              new_ClientSession 4 4 eq_refl eq_refl) as (H & _).
  exact H.
Defined.

(** C8 as stated fails: asked for 4 bytes at offset 4 of a 6-byte file, the
    fetch returns the 2 bytes there are. *)
Lemma fetch_returns_short_body :
  ~ fetch_returns_exactly (range_server short_file) fresh_reader 4 4.
Proof.
  intros H.
  specialize (H (octets [8; 0])
                (after_request (4, 7) new_ClientSession fresh_reader) eq_refl).
  discriminate H.
Qed.

(** A file with the marker "XX": the statement is left with the
    invalid-format error and the session still open. *)
Lemma aenter_failure_leaks_session_witness :
  async_with (range_server bad_marker_file) Little sample_types 5 "cog.tif" (ret tt)
  = (Raise (ValueError "Invalid file format"), after_walk bad_marker_file Little 5) /\
  session_open (after_walk bad_marker_file Little 5).
Proof.
  apply (aenter_failure_leaks_session (range_server bad_marker_file) Little sample_types
           5 "cog.tif" (ret tt)).
  vm_compute; reflexivity.
Defined.

Lemma next_pointer_is_unsigned_witness :
  0 <= ifd.next_ifd_pointer directory_A.
Proof.
  destruct (next_pointer_is_unsigned (range_server two_directories) Little sample_types
              8 (classic_reader Little) directory_A
              (snd (_read_ifd (range_server two_directories) Little sample_types 8
                      (classic_reader Little))))
    as (H & _).
  - vm_compute; reflexivity.
  - exact H.
Defined.

(** * Further properties *)

(** ** Byte order and list helpers *)

Lemma decode_rev (b : bytes) : decode Big (rev b) = decode Little b.
Proof. cbn [decode]. now rewrite rev_involutive. Qed.

Lemma decode_encode (bo : ByteOrder) (size : nat) (z : Z) :
  0 <= z < 2 ^ (8 * Z.of_nat size) -> decode bo (encode bo size z) = z.
Proof.
  intros Hz.
  assert (H : le_combine (le_split size z) = z).
  { rewrite le_combine_split. apply Z.mod_small.
    replace (Z.of_nat size * 8) with (8 * Z.of_nat size) by lia. exact Hz. }
  destruct bo; cbn [decode encode]; [exact H | now rewrite rev_involutive].
Qed.

Lemma skipn_length_app {A} (l1 l2 : list A) (n : nat) :
  length l1 = n -> skipn n (l1 ++ l2) = l2.
Proof. intros <-. now rewrite skipn_app, skipn_all, Nat.sub_diag. Qed.

Lemma firstn_length_app {A} (l1 l2 : list A) (n : nat) :
  length l1 = n -> firstn n (l1 ++ l2) = l1.
Proof. intros <-. now rewrite firstn_app, firstn_all, Nat.sub_diag, firstn_O, app_nil_r. Qed.

(** ** What a successful step says about the file *)

Section Inversion.

Variable net : Transport.
Variable host : ByteOrder.
Variable per_type_byte_size : Z -> option N.

Lemma read_ok_inv offset size s b s' :
  _read net offset size s = (Ok b, s') ->
  exists c,
    _client s = Some c /\ closed c = false /\
    net (offset, offset + size - 1) = Some {| ok := true; body := b |} /\
    s' = after_request (offset, offset + size - 1) c s.
Proof.
  unfold _read. destruct (_client s) as [c|]; [|discriminate].
  destruct (closed c) eqn:Hcl; [discriminate|].
  destruct (net _) as [[o bd]|]; [|discriminate]. cbn [ok body].
  destruct o; [|discriminate]. intros [= <- <-].
  exists c. repeat split; assumption.
Qed.

Lemma unpack_ok_length f data vals :
  unpack host f data = Ok vals -> calcsize f = Ok (Z.of_nat (length data)).
Proof.
  unfold unpack. destruct (calcsize f) as [size| |]; cbn [obind]; try discriminate.
  destruct (Z.eqb_spec (Z.of_nat (length data)) size); [|discriminate].
  intros _. now f_equal.
Qed.

Lemma Ok_inj {A} (a b : A) : Ok a = Ok b -> a = b.
Proof. now intros [= ->]. Qed.

Lemma ok_of_nat_inj (a b : nat) : @Ok Z (Z.of_nat a) = Ok (Z.of_nat b) -> a = b.
Proof. intros H. apply Nat2Z.inj. congruence. Qed.

Lemma lift_calcsize_inv f s size s' :
  lift (calcsize f) s = (Ok size, s') ->
  calcsize f = Ok size /\ s' = s.
Proof. apply lift_ok_inv. Qed.

Lemma read_ifd_ok_inv p s d s' :
  _read_ifd net host per_type_byte_size p s = (Ok d, s') ->
  exists c bo pf nf n_data ifd_data,
    _client s = Some c /\ closed c = false /\
    _byte_order_fmt s = Some bo /\ _pointer_fmt s = Some pf /\ _n_fmt s = Some nf /\
    let cw := Z.of_nat (count_size nf) in
    let r1 : Range := (p, p + cw - 1) in
    let n := Z.to_nat (decode bo n_data) in
    let tags_len := (n * record_size pf)%nat in
    let r2 : Range := (p + cw, p + cw + Z.of_nat (tags_len + pointer_size pf) - 1) in
    net r1 = Some {| ok := true; body := n_data |} /\
    length n_data = count_size nf /\
    net r2 = Some {| ok := true; body := ifd_data |} /\
    length ifd_data = (tags_len + pointer_size pf)%nat /\
    ifd.offset d = p /\
    ifd.n_tags d = decode bo n_data /\
    ifd.next_ifd_pointer d = decode bo (skipn tags_len ifd_data) /\
    _tags_from_data host per_type_byte_size s (decode bo n_data)
      (firstn tags_len ifd_data) = Ok (ifd.tags d) /\
    s' = after_request r2 (record_request r1 c) (after_request r1 c s).
Proof.
  intros H0. pose proof H0 as H. unfold _read_ifd in H.
  apply bind_ok_inv in H as (nfs & s1 & E1 & H). apply call_ok_inv in E1 as [E1 ->].
  destruct (_n_fmt s) as [nf|] eqn:Hnf; [|discriminate]. cbn [getattr obind] in E1.
  unfold _format in E1.
  destruct (_byte_order_fmt s) as [bo|] eqn:Hbo; [|discriminate].
  cbn [getattr obind] in E1. injection E1 as <-.
  apply bind_ok_inv in H as (n_size & s1 & Ec & H).
  apply lift_calcsize_inv in Ec as [Ec ->].
  rewrite calcsize_n_format in Ec. apply Ok_inj in Ec as <-.
  apply bind_ok_inv in H as (n_data & s2 & E2 & H).
  apply read_ok_inv in E2 as (c & Hc & Hcl & Hnet1 & ->).
  apply bind_ok_inv in H as (vals & s3 & E3 & H). apply lift_ok_inv in E3 as [E3 ->].
  pose proof (unpack_ok_length _ _ _ E3) as Hlen1.
  rewrite calcsize_n_format in Hlen1. apply ok_of_nat_inj in Hlen1. symmetry in Hlen1.
  rewrite (unpack_n_format host bo nf n_data Hlen1) in E3. injection E3 as <-.
  apply bind_ok_inv in H as (tf & s4 & E4 & H). apply call_ok_inv in E4 as [E4 ->].
  unfold _tag_format in E4.
  cbn [after_request set_client _pointer_fmt _byte_order_fmt] in E4.
  destruct (_pointer_fmt s) as [pf|] eqn:Hpf; [|discriminate].
  cbn [getattr obind] in E4. unfold _format in E4.
  cbn [after_request set_client _pointer_fmt _byte_order_fmt] in E4.
  rewrite Hbo in E4. cbn [getattr obind] in E4. injection E4 as <-.
  apply bind_ok_inv in H as (tag_size & s4 & Ec & H).
  apply lift_calcsize_inv in Ec as [Ec ->].
  rewrite calcsize_tag_format in Ec. apply Ok_inj in Ec as <-.
  apply bind_ok_inv in H as (n_size & s4 & Ec & H).
  apply lift_calcsize_inv in Ec as [Ec ->].
  rewrite calcsize_n_format in Ec. apply Ok_inj in Ec as <-.
  pose proof (decode_bound bo n_data) as [Hn0 _].
  set (n := Z.to_nat (decode bo n_data)) in *.
  assert (Hn : Z.of_nat n = decode bo n_data) by (unfold n; lia).
  replace (Z.to_nat (decode bo n_data * Z.of_nat (record_size pf)))
    with (n * record_size pf)%nat in H by (rewrite <- Hn; lia).
  apply bind_ok_inv in H as (iff & s5 & E5 & H). apply call_ok_inv in E5 as [E5 ->].
  cbn [after_request set_client _pointer_fmt _byte_order_fmt] in E5.
  rewrite Hpf in E5. cbn [getattr obind] in E5. unfold _format in E5.
  cbn [after_request set_client _pointer_fmt _byte_order_fmt] in E5.
  rewrite Hbo in E5. cbn [getattr obind] in E5. injection E5 as <-.
  apply bind_ok_inv in H as (ifd_size & s5 & Ec & H).
  apply lift_calcsize_inv in Ec as [Ec ->].
  apply bind_ok_inv in H as (ifd_data & s6 & E6 & H).
  apply read_ok_inv in E6 as (c' & Hc' & Hcl' & Hnet2 & ->).
  apply bind_ok_inv in H as (vals & s7 & E7 & H). apply lift_ok_inv in E7 as [E7 ->].
  pose proof (unpack_ok_length _ _ _ E7) as Hlen2.
  rewrite Ec in Hlen2. apply Ok_inj in Hlen2 as ->.
  apply calcsize_ok in Ec as [Ec _]. rewrite total_size_ifd_format in Ec.
  apply Nat2Z.inj in Ec. rewrite Ec in Hnet2. rename Ec into Hlen2.
  clear H E7.
  destruct (read_ifd_run net host per_type_byte_size p s c bo pf nf n_data ifd_data
              Hc Hcl Hbo Hpf Hnf Hnet1 Hlen1 Hnet2 Hlen2) as (tags & Htags & Hrun).
  rewrite Hrun in H0. injection H0 as <- <-.
  exists c, bo, pf, nf, n_data, ifd_data. cbv zeta. fold n.
  repeat split; assumption.
Qed.

Lemma read_first_header_ok_file s u s1 :
  _read_first_header net host s = (Ok u, s1) ->
  exists c data bo,
    _client s = Some c /\ closed c = false /\
    net (0, 3) = Some {| ok := true; body := data |} /\
    length data = 4%nat /\
    marker_order (firstn 2 data) = Some bo /\
    (decode bo (skipn 2 data) = 42 \/ decode bo (skipn 2 data) = 43) /\
    s1 = set_version (decode bo (skipn 2 data))
           (set_byte_order_fmt bo (after_request (0, 3) c s)).
Proof.
  intros H0. pose proof H0 as H. unfold _read_first_header in H.
  apply bind_ok_inv in H as (data & sa & E & H).
  apply read_ok_inv in E as (c & Hc & Hcl & Hnet & ->).
  apply bind_ok_inv in H as (vals & sb & E & _).
  apply lift_ok_inv in E as [E _].
  apply unpack_ok_length in E. change (calcsize _) with (@Ok Z (Z.of_nat 4)) in E.
  apply ok_of_nat_inj in E.
  assert (Hlen : length data = 4%nat) by lia.
  change (0 + 4 - 1) with 3 in Hnet.
  rewrite (read_first_header_run net host s c data Hc Hcl Hnet Hlen) in H0.
  exists c, data.
  destruct (marker_order (firstn 2 data)) as [bo|]; [|discriminate].
  exists bo. cbv zeta in H0.
  destruct ((decode bo (skipn 2 data) =? 42) || (decode bo (skipn 2 data) =? 43)) eqn:Hv;
    [|discriminate].
  injection H0 as _ <-. repeat split; try assumption. lia.
Qed.

Lemma read_second_header_ok_inv s u s1 :
  _read_second_header net host s = (Ok u, s1) ->
  exists c bo pf data,
    _client s = Some c /\ closed c = false /\
    _byte_order_fmt s = Some bo /\ _pointer_fmt s = Some pf /\
    net (4, 4 + Z.of_nat (pointer_size pf) - 1) = Some {| ok := true; body := data |} /\
    length data = pointer_size pf /\
    s1 = set_first_ifd_pointer (decode bo data)
           (after_request (4, 4 + Z.of_nat (pointer_size pf) - 1) c s).
Proof.
  intros H0. pose proof H0 as H. unfold _read_second_header in H.
  apply bind_ok_inv in H as (fmt & sa & E & H). apply call_ok_inv in E as [E ->].
  destruct (_pointer_fmt s) as [pf|] eqn:Hpf; [|discriminate].
  cbn [getattr obind] in E. unfold _format in E.
  destruct (_byte_order_fmt s) as [bo|] eqn:Hbo; [|discriminate].
  cbn [getattr obind] in E. injection E as <-.
  apply bind_ok_inv in H as (size & sa & Ec & H).
  apply lift_calcsize_inv in Ec as [Ec ->].
  rewrite calcsize_pointer_format in Ec. apply Ok_inj in Ec as <-.
  apply bind_ok_inv in H as (data & sb & E & H).
  apply read_ok_inv in E as (c & Hc & Hcl & Hnet & ->).
  apply bind_ok_inv in H as (vals & sc & E & _). apply lift_ok_inv in E as [E _].
  apply unpack_ok_length in E. rewrite calcsize_pointer_format in E.
  apply ok_of_nat_inj in E. symmetry in E.
  rewrite (read_second_header_run net host s c bo pf data Hc Hcl Hbo Hpf Hnet E) in H0.
  injection H0 as _ <-.
  exists c, bo, pf, data. repeat split; assumption.
Qed.

Lemma read_bigtiff_second_header_ok_inv s u s1 :
  _read_bigtiff_second_header net host s = (Ok u, s1) ->
  exists c bo data,
    _client s = Some c /\ closed c = false /\
    _byte_order_fmt s = Some bo /\
    net (4, 15) = Some {| ok := true; body := data |} /\
    length data = 12%nat /\
    decode bo (firstn 2 data) = 8 /\
    decode bo (firstn 2 (skipn 2 data)) = 0 /\
    s1 = set_first_ifd_pointer (decode bo (skipn 4 data)) (after_request (4, 15) c s).
Proof.
  intros H0. pose proof H0 as H. unfold _read_bigtiff_second_header in H.
  apply bind_ok_inv in H as (fmt & sa & E & H). apply call_ok_inv in E as [E ->].
  unfold _format in E.
  destruct (_byte_order_fmt s) as [bo|] eqn:Hbo; [|discriminate].
  cbn [getattr obind] in E. injection E as <-.
  apply bind_ok_inv in H as (size & sa & Ec & H).
  apply lift_calcsize_inv in Ec as [Ec ->].
  change (calcsize (Format (Some bo) [(1%nat, c_H); (1%nat, c_H); (1%nat, c_Q)]))
    with (@Ok Z 12) in Ec. injection Ec as <-.
  apply bind_ok_inv in H as (data & sb & E & H).
  apply read_ok_inv in E as (c & Hc & Hcl & Hnet & ->).
  change (4 + 12 - 1) with 15 in Hnet.
  apply bind_ok_inv in H as (vals & sc & E & _). apply lift_ok_inv in E as [E _].
  apply unpack_ok_length in E.
  change (calcsize _) with (@Ok Z (Z.of_nat 12)) in E. apply ok_of_nat_inj in E.
  assert (Hlen : length data = 12%nat) by lia.
  rewrite (read_bigtiff_second_header_run net host s c bo data Hc Hcl Hbo Hnet Hlen) in H0.
  destruct (Z.eqb_spec (decode bo (firstn 2 data)) 8); [|discriminate].
  destruct (Z.eqb_spec (decode bo (firstn 2 (skipn 2 data))) 0); [|discriminate].
  injection H0 as _ <-.
  exists c, bo, data. repeat split; assumption.
Qed.

Lemma read_header_ok_inv s u s' :
  _read_header net host s = (Ok u, s') ->
  exists c bo data1 data2,
    _client s = Some c /\ closed c = false /\
    net (0, 3) = Some {| ok := true; body := data1 |} /\ length data1 = 4%nat /\
    marker_order (firstn 2 data1) = Some bo /\
    (decode bo (skipn 2 data1) = 42 /\
     net (4, 7) = Some {| ok := true; body := data2 |} /\ length data2 = 4%nat /\
     s' = header_state bo 42 ptr_I n_H (decode bo data2) 7 c s
     \/
     decode bo (skipn 2 data1) = 43 /\
     net (4, 15) = Some {| ok := true; body := data2 |} /\ length data2 = 12%nat /\
     decode bo (firstn 2 data2) = 8 /\ decode bo (firstn 2 (skipn 2 data2)) = 0 /\
     s' = header_state bo 43 ptr_Q n_Q (decode bo (skipn 4 data2)) 15 c s).
Proof.
  intros H. unfold _read_header in H.
  apply bind_ok_inv in H as (? & s1 & E1 & H).
  apply read_first_header_ok_file in E1
    as (c & data1 & bo & Hc & Hcl & Hnet & Hlen & Hm & Hv & ->).
  apply bind_ok_inv in H as (big & s2 & E2 & H).
  apply call_ok_inv in E2 as [E2 ->]. unfold is_bigtiff in E2.
  cbn [set_version _version getattr obind] in E2. injection E2 as <-.
  exists c, bo, data1.
  match type of H with
  | context [if ?b then _ else _] => destruct b eqn:H43
  end.
  - apply Z.eqb_eq in H43. change (decode bo (skipn 2 data1) = 43) in H43.
    apply bind_ok_inv in H as (? & s3 & E3 & H). apply assign_inv in E3 as [_ ->].
    apply bind_ok_inv in H as (? & s4 & E4 & H). apply assign_inv in E4 as [_ ->].
    apply read_bigtiff_second_header_ok_inv in H
      as (c' & bo' & data2 & Hc' & _ & Hbo' & Hnet2 & Hlen2 & H8 & H0 & ->).
    cbn in Hc', Hbo'. injection Hc' as <-. injection Hbo' as <-.
    exists data2. repeat split; try assumption. right.
    rewrite H43. repeat split; assumption.
  - apply Z.eqb_neq in H43. change (decode bo (skipn 2 data1) <> 43) in H43.
    assert (H42 : decode bo (skipn 2 data1) = 42) by lia.
    apply bind_ok_inv in H as (? & s3 & E3 & H). apply assign_inv in E3 as [_ ->].
    apply bind_ok_inv in H as (? & s4 & E4 & H). apply assign_inv in E4 as [_ ->].
    apply read_second_header_ok_inv in H
      as (c' & bo' & pf' & data2 & Hc' & _ & Hbo' & Hpf' & Hnet2 & Hlen2 & ->).
    cbn in Hc', Hbo', Hpf'. injection Hc' as <-. injection Hbo' as <-.
    injection Hpf' as <-.
    exists data2. repeat split; try assumption. left.
    rewrite H42. repeat split; assumption.
Qed.

Lemma except_ok_inv {A} (m h : M A) s a s' :
  (forall s1 r s2, h s1 = (r, s2) -> r <> Ok a) ->
  except_AssertionError m h s = (Ok a, s') -> m s = (Ok a, s').
Proof.
  intros Hh. unfold except_AssertionError.
  destruct (m s) as [[x|e|] s1]; try discriminate; [auto|].
  destruct e; try discriminate. intros H. now apply Hh in H.
Qed.

Lemma aenter_ok_inv fuel s0 u s' :
  __aenter__ net host per_type_byte_size fuel s0 = (Ok u, s') ->
  exists s1,
    _read_header net host (set_client new_ClientSession s0) = (Ok tt, s1) /\
    _read_idfs net host per_type_byte_size fuel s1 = (Ok u, s').
Proof.
  unfold __aenter__.
  rewrite (bind_ok _ _ s0 tt (set_client new_ClientSession s0)) by reflexivity.
  intros H. apply except_ok_inv in H.
  - apply bind_ok_inv in H as ([] & s1 & E & H). now exists s1.
  - intros s1 r s2 [= <- _]. discriminate.
Qed.

End Inversion.

(** ** The cost and the bounds of a directory *)

Section DirectoryFacts.

Variable net : Transport.
Variable host : ByteOrder.
Variable per_type_byte_size : Z -> option N.

Lemma read_ifd_request_count p s d s' :
  _read_ifd net host per_type_byte_size p s = (Ok d, s') ->
  length (requests s') = (length (requests s) + 2)%nat.
Proof.
  intros H.
  destruct (read_ifd_ok_inv net host per_type_byte_size p s d s' H)
    as (c & bo & pf & nf & n_data & ifd_data & Hc & _ & _ & _ & _ & Hrest).
  cbv zeta in Hrest.
  destruct Hrest as (_ & _ & _ & _ & _ & _ & _ & _ & ->).
  unfold requests. rewrite Hc. cbn [after_request set_client _client record_request sent].
  rewrite !length_app. cbn [length]. lia.
Qed.

Lemma chain_request_count :
  forall ds s p s',
    chain net host per_type_byte_size s p ds s' ->
    length (requests s') = (length (requests s) + 2 * length ds)%nat.
Proof.
  induction ds as [|d rest IH]; intros s p s'; cbn [chain].
  - intros [_ ->]. cbn [length]. lia.
  - intros (_ & Hd & Hrest).
    destruct (_read_ifd net host per_type_byte_size p s) as [r s1] eqn:E.
    cbn [fst snd] in Hd, Hrest. subst r.
    rewrite (IH _ _ _ Hrest).
    change (requests (append_ifd d s1)) with (requests s1).
    rewrite (read_ifd_request_count p s d s1 E). cbn [length]. lia.
Qed.

(** X6: decoding a directory costs exactly two range requests, whatever
    the number of its tags: the count field at the directory's offset, then
    one request for all the tag records and the next-directory offset,
    [n_tags] records of the variant's size and one pointer long. *)
Theorem directory_costs_two_requests p s d s' :
  _read_ifd net host per_type_byte_size p s = (Ok d, s') ->
  exists pf nf,
    _pointer_fmt s = Some pf /\ _n_fmt s = Some nf /\
    let cw := Z.of_nat (count_size nf) in
    requests s'
    = requests s
      ++ [(p, p + cw - 1);
          (p + cw,
           p + cw + (ifd.n_tags d * Z.of_nat (record_size pf)
                     + Z.of_nat (pointer_size pf)) - 1)].
Proof.
  intros H.
  destruct (read_ifd_ok_inv net host per_type_byte_size p s d s' H)
    as (c & bo & pf & nf & n_data & ifd_data & Hc & Hcl & Hbo & Hpf & Hnf & Hrest).
  cbv zeta in Hrest.
  destruct Hrest as (_ & _ & _ & _ & _ & Hn & _ & _ & ->).
  exists pf, nf. split; [exact Hpf|]. split; [exact Hnf|]. cbv zeta.
  unfold requests. rewrite Hc. cbn [after_request set_client _client record_request sent].
  rewrite <- app_assoc. cbn [app]. rewrite Hn.
  pose proof (decode_bound bo n_data) as [Hn0 _].
  do 3 f_equal. f_equal. lia.
Qed.

(** X7: the fields of a decoded directory fit their on-disk width: the tag
    count is below 2^16 (classic) or 2^64 (extended), the next-directory
    offset is below 2^32 or 2^64, and the directory never has more tags than
    it declares. *)
Theorem directory_fields_are_bounded p s d s' :
  _read_ifd net host per_type_byte_size p s = (Ok d, s') ->
  exists pf nf,
    _pointer_fmt s = Some pf /\ _n_fmt s = Some nf /\
    0 <= ifd.n_tags d < 2 ^ (8 * Z.of_nat (count_size nf)) /\
    0 <= ifd.next_ifd_pointer d < 2 ^ (8 * Z.of_nat (pointer_size pf)) /\
    Z.of_nat (length (ifd.tags d)) <= ifd.n_tags d.
Proof.
  intros H.
  destruct (read_ifd_ok_inv net host per_type_byte_size p s d s' H)
    as (c & bo & pf & nf & n_data & ifd_data & Hc & Hcl & Hbo & Hpf & Hnf & Hrest).
  cbv zeta in Hrest.
  destruct Hrest as (_ & Hlen1 & Hnet2 & Hlen2 & _ & Hn & Hnext & Htags & _).
  pose proof (body_fits net _ _ Hnet2) as Hfit. cbn [body] in Hfit.
  exists pf, nf. split; [exact Hpf|]. split; [exact Hnf|].
  pose proof (decode_bound bo n_data) as Hb1. rewrite Hlen1 in Hb1.
  set (n := Z.to_nat (decode bo n_data)) in *.
  pose proof (decode_bound bo (skipn (n * record_size pf) ifd_data)) as Hb2.
  rewrite length_skipn, Hlen2 in Hb2.
  replace (n * record_size pf + pointer_size pf - n * record_size pf)%nat
    with (pointer_size pf) in Hb2 by lia.
  rewrite Hn, Hnext. split; [exact Hb1|]. split; [exact Hb2|].
  assert (Htl : length (firstn (n * record_size pf) ifd_data) = (n * record_size pf)%nat)
    by (rewrite length_firstn; lia).
  assert (Hfit' : Z.of_nat (length (firstn (n * record_size pf) ifd_data))
                  <= PY_SSIZE_T_MAX) by (rewrite length_firstn; lia).
  destruct (tags_from_data_run host per_type_byte_size s bo pf n _ Hbo Hpf Htl Hfit')
    as (tags & Hrun & Hf).
  assert (Hnz : Z.of_nat n = decode bo n_data) by (unfold n; lia).
  rewrite Hnz, Htags in Hrun. injection Hrun as <-.
  apply Forall2_length in Hf. rewrite <- Hf, <- Hnz.
  apply inj_le. etransitivity; [apply filter_length_le|].
  now rewrite length_chunks.
Qed.

(** X8: the fields of a decoded tag fit their on-disk width: code and type
    are below 2^16, the value count and the pointer are below 2^32 (classic)
    or 2^64 (extended), and an inline value is never longer than a
    pointer. *)
Theorem tag_fields_are_bounded (self : COGReader) (td : bytes) (tag : ifd.Tag) :
  _tag_from_tag_data host per_type_byte_size self td = Ok tag ->
  exists pf,
    _pointer_fmt self = Some pf /\
    0 <= ifd.code tag < 2 ^ 16 /\
    0 <= ifd.type tag < 2 ^ 16 /\
    0 <= ifd.n_values tag < 2 ^ (8 * Z.of_nat (pointer_size pf)) /\
    (forall p, ifd.pointer tag = Some p -> 0 <= p < 2 ^ (8 * Z.of_nat (pointer_size pf))) /\
    (forall d, ifd.data tag = Some d -> (length d <= pointer_size pf)%nat).
Proof.
  intros H.
  destruct (tag_from_tag_data_ok_inv host per_type_byte_size self td tag H)
    as (bo & pf & Hbo & Hpf & Hlen).
  rewrite (tag_from_tag_data_eq host per_type_byte_size self bo pf td Hbo Hpf Hlen) in H.
  exists pf. split; [exact Hpf|].
  assert (Hps : (1 <= pointer_size pf)%nat) by (destruct pf; cbn; lia).
  assert (Hc : 0 <= field_code bo td < 2 ^ 16).
  { pose proof (decode_bound bo (firstn 2 td)) as Hb.
    rewrite length_firstn, Hlen in Hb. unfold record_size in Hb.
    replace (Nat.min 2 (4 + 2 * pointer_size pf)) with 2%nat in Hb by lia. exact Hb. }
  assert (Ht : 0 <= field_type bo td < 2 ^ 16).
  { pose proof (decode_bound bo (firstn 2 (skipn 2 td))) as Hb.
    rewrite length_firstn, length_skipn, Hlen in Hb. unfold record_size in Hb.
    replace (Nat.min 2 (4 + 2 * pointer_size pf - 2)) with 2%nat in Hb by lia. exact Hb. }
  assert (Hn : 0 <= field_count bo pf td < 2 ^ (8 * Z.of_nat (pointer_size pf))).
  { pose proof (decode_bound bo (firstn (pointer_size pf) (skipn 4 td))) as Hb.
    rewrite length_firstn, length_skipn, Hlen in Hb. unfold record_size in Hb.
    replace (Nat.min (pointer_size pf) (4 + 2 * pointer_size pf - 4))
      with (pointer_size pf) in Hb by lia. exact Hb. }
  assert (Hp : 0 <= decode bo (value_slot pf td) < 2 ^ (8 * Z.of_nat (pointer_size pf))).
  { pose proof (decode_bound bo (value_slot pf td)) as Hb.
    now rewrite (length_value_slot pf td Hlen) in Hb. }
  destruct (per_type_byte_size (field_type bo td)) as [sz|]; [|discriminate].
  cbv zeta in H.
  destruct (Z.of_N sz * field_count bo pf td <=? Z.of_nat (pointer_size pf));
    injection H as <-;
    cbn [ifd.set_pointer ifd.set_data raw_tag ifd.type ifd.n_values ifd.pointer
         ifd.data ifd.code];
    (split; [exact Hc|]); (split; [exact Ht|]); (split; [exact Hn|]); split.
  - discriminate.
  - intros d [= <-]. rewrite length_firstn, length_encode. lia.
  - intros p [= <-]. exact Hp.
  - discriminate.
Qed.

End DirectoryFacts.

(** ** The field widths of a session *)


Section FieldWidths.

Variable net : Transport.
Variable host : ByteOrder.
Variable per_type_byte_size : Z -> option N.





End FieldWidths.

(** ** The header decoder *)

Section HeaderRuns.

Variable host : ByteOrder.

Lemma read_header_classic_run (net : Transport) s c bo data1 data2 :
  _client s = Some c -> closed c = false ->
  net (0, 3) = Some {| ok := true; body := data1 |} -> length data1 = 4%nat ->
  marker_order (firstn 2 data1) = Some bo ->
  decode bo (skipn 2 data1) = 42 ->
  net (4, 7) = Some {| ok := true; body := data2 |} -> length data2 = 4%nat ->
  _read_header net host s
  = (Ok tt, header_state bo 42 ptr_I n_H (decode bo data2) 7 c s).
Proof.
  intros Hc Hcl Hnet1 Hlen1 Hm Hv Hnet2 Hlen2. unfold _read_header.
  pose proof (read_first_header_run net host s c data1 Hc Hcl Hnet1 Hlen1) as Hrun.
  rewrite Hm in Hrun. cbv zeta in Hrun. rewrite Hv in Hrun. cbn [Z.eqb Pos.eqb orb] in Hrun.
  rewrite (bind_ok _ _ _ _ _ Hrun).
  cbv [bind call assign]. cbn [is_bigtiff getattr obind _version set_version].
  cbn [Z.eqb Pos.eqb].
  apply (read_second_header_run net host _ (record_request (0, 3) c) bo ptr_I data2);
    try reflexivity; assumption.
Qed.

Lemma read_header_extended_run (net : Transport) s c bo data1 data2 :
  _client s = Some c -> closed c = false ->
  net (0, 3) = Some {| ok := true; body := data1 |} -> length data1 = 4%nat ->
  marker_order (firstn 2 data1) = Some bo ->
  decode bo (skipn 2 data1) = 43 ->
  net (4, 15) = Some {| ok := true; body := data2 |} -> length data2 = 12%nat ->
  _read_header net host s
  = (if decode bo (firstn 2 data2) =? 8
     then if decode bo (firstn 2 (skipn 2 data2)) =? 0
          then Ok tt else Raise AssertionError
     else Raise AssertionError,
     header_state bo 43 ptr_Q n_Q (decode bo (skipn 4 data2)) 15 c s).
Proof.
  intros Hc Hcl Hnet1 Hlen1 Hm Hv Hnet2 Hlen2. unfold _read_header.
  pose proof (read_first_header_run net host s c data1 Hc Hcl Hnet1 Hlen1) as Hrun.
  rewrite Hm in Hrun. cbv zeta in Hrun. rewrite Hv in Hrun. cbn [Z.eqb Pos.eqb orb] in Hrun.
  rewrite (bind_ok _ _ _ _ _ Hrun).
  cbv [bind call assign]. cbn [is_bigtiff getattr obind _version set_version].
  cbn [Z.eqb Pos.eqb].
  apply (read_bigtiff_second_header_run net host _ (record_request (0, 3) c) bo data2);
    try reflexivity; assumption.
Qed.

(** X4: the classic header decodes alike in both byte orders: with the
    marker swapped and the version and first-directory offset byte-swapped,
    the decoder sends the same requests and assigns the same version, field
    widths and first-directory offset; only the byte-order attribute
    differs. *)
Theorem classic_header_is_byte_order_symmetric (net_le net_be : Transport) s c
    version first :
  _client s = Some c -> closed c = false ->
  length version = 2%nat -> length first = 4%nat ->
  decode Little version = 42 ->
  net_le (0, 3) = Some {| ok := true; body := b_II ++ version |} ->
  net_le (4, 7) = Some {| ok := true; body := first |} ->
  net_be (0, 3) = Some {| ok := true; body := b_MM ++ rev version |} ->
  net_be (4, 7) = Some {| ok := true; body := rev first |} ->
  _read_header net_le host s
  = (Ok tt, header_state Little 42 ptr_I n_H (decode Little first) 7 c s) /\
  _read_header net_be host s
  = (Ok tt, header_state Big 42 ptr_I n_H (decode Little first) 7 c s).
Proof.
  intros Hc Hcl Hlv Hlf Hv Hle1 Hle2 Hbe1 Hbe2.
  explode_bytes version 2. explode_bytes first 4.
  split.
  - apply (read_header_classic_run net_le s c Little _ _ Hc Hcl Hle1); try reflexivity;
      assumption.
  - rewrite <- (decode_rev [b1; b2; b3; b4]).
    apply (read_header_classic_run net_be s c Big _ _ Hc Hcl Hbe1); try reflexivity;
      assumption.
Qed.

(** X5: the extended header decodes alike in both byte orders: with the
    marker swapped and each of the four fields byte-swapped, the outcome
    (success, or the failed check of the pointer size or reserved field) is
    the same and so are the version, field widths and first-directory
    offset. *)
Theorem extended_header_is_byte_order_symmetric (net_le net_be : Transport) s c
    version bytesize placeholder first :
  _client s = Some c -> closed c = false ->
  length version = 2%nat -> length bytesize = 2%nat ->
  length placeholder = 2%nat -> length first = 8%nat ->
  decode Little version = 43 ->
  net_le (0, 3) = Some {| ok := true; body := b_II ++ version |} ->
  net_le (4, 15) = Some {| ok := true; body := bytesize ++ placeholder ++ first |} ->
  net_be (0, 3) = Some {| ok := true; body := b_MM ++ rev version |} ->
  net_be (4, 15)
    = Some {| ok := true; body := rev bytesize ++ rev placeholder ++ rev first |} ->
  fst (_read_header net_le host s) = fst (_read_header net_be host s) /\
  snd (_read_header net_le host s)
  = header_state Little 43 ptr_Q n_Q (decode Little first) 15 c s /\
  snd (_read_header net_be host s)
  = header_state Big 43 ptr_Q n_Q (decode Little first) 15 c s.
Proof.
  intros Hc Hcl Hlv Hlb Hlp Hlf Hv Hle1 Hle2 Hbe1 Hbe2.
  explode_bytes version 2. explode_bytes bytesize 2. explode_bytes placeholder 2.
  explode_bytes first 8.
  rewrite (read_header_extended_run net_le s c Little _ _ Hc Hcl Hle1 eq_refl eq_refl Hv
             Hle2 eq_refl).
  assert (Hv' : decode Big (skipn 2 (b_MM ++ rev [b; b0])) = 43)
    by (rewrite <- Hv; apply (decode_rev [b; b0])).
  rewrite (read_header_extended_run net_be s c Big _ _ Hc Hcl Hbe1 eq_refl eq_refl Hv'
             Hbe2 eq_refl).
  cbn [fst snd app rev firstn skipn].
  change (decode Big [b2; b1]) with (decode Big (rev [b1; b2])).
  change (decode Big [b4; b3]) with (decode Big (rev [b3; b4])).
  change (decode Big [b12; b11; b10; b9; b8; b7; b6; b5])
    with (decode Big (rev [b5; b6; b7; b8; b9; b10; b11; b12])).
  rewrite !decode_rev. repeat split.
Qed.

End HeaderRuns.

(** ** The session as a whole *)

Section Session.

Variable net : Transport.
Variable host : ByteOrder.
Variable per_type_byte_size : Z -> option N.

(** X1: with a valid marker the first header succeeds exactly for the
    versions 42 and 43. The version attribute is assigned before it is
    checked, so it holds the rejected version after a failure; the header
    decoder then stops after its first request, with the field widths not
    assigned. *)
Theorem version_is_checked_after_it_is_stored s c data bo :
  _client s = Some c -> closed c = false ->
  net (0, 3) = Some {| ok := true; body := data |} ->
  length data = 4%nat ->
  marker_order (firstn 2 data) = Some bo ->
  let version := decode bo (skipn 2 data) in
  let r := _read_first_header net host s in
  _version (snd r) = Some version /\
  (version = 42 \/ version = 43 -> fst r = Ok tt) /\
  (version <> 42 -> version <> 43 ->
   fst r = Raise AssertionError /\
   fst (_read_header net host s) = Raise AssertionError /\
   _pointer_fmt (snd (_read_header net host s)) = _pointer_fmt s /\
   requests (snd (_read_header net host s)) = sent c ++ [(0, 3)]).
Proof.
  intros Hc Hcl Hnet Hlen Hm version r.
  pose proof (read_first_header_run net host s c data Hc Hcl Hnet Hlen) as Hrun.
  rewrite Hm in Hrun. cbv zeta in Hrun. fold version in Hrun. subst r.
  rewrite Hrun. cbn [fst snd].
  split; [reflexivity|]. split.
  - intros [-> | ->]; reflexivity.
  - intros H42 H43.
    assert (Hb : (version =? 42) || (version =? 43) = false).
    { apply orb_false_intro; now apply Z.eqb_neq. }
    rewrite Hb. split; [reflexivity|].
    assert (Hh : _read_header net host s
                 = (Raise AssertionError,
                    set_version version (set_byte_order_fmt bo (after_request (0, 3) c s)))).
    { unfold _read_header. apply bind_raise. rewrite Hrun, Hb. reflexivity. }
    rewrite Hh. cbn [fst snd]. split; [reflexivity|]. split; reflexivity.
Qed.

(** X2: how the session fails on its first request. When the request
    cannot be performed the client error leaves [__aenter__] as it is; a
    response whose status is not OK becomes the invalid-format error; a
    response with an OK status and a body that is not 4 bytes long raises
    [struct.error], which [__aenter__] does not convert. *)
Theorem first_request_failures fuel s0 :
  match net (0, 3) with
  | None =>
      fst (__aenter__ net host per_type_byte_size fuel s0) = Raise ClientError
  | Some response =>
      if ok response
      then length (body response) <> 4%nat ->
           fst (__aenter__ net host per_type_byte_size fuel s0) = Raise StructError
      else fst (__aenter__ net host per_type_byte_size fuel s0)
           = Raise (ValueError "Invalid file format")
  end.
Proof.
  set (s1 := set_client new_ClientSession s0).
  assert (Hread : _read net 0 4 s1
                  = (match net (0, 3) with
                     | None => Raise ClientError
                     | Some response =>
                         if ok response then Ok (body response)
                         else Raise AssertionError
                     end, after_request (0, 3) new_ClientSession s1))
    by (apply (read_eq net s1 new_ClientSession 0 4); reflexivity).
  assert (Henter : forall e s',
             _read_header net host s1 = (Raise e, s') ->
             e <> AssertionError ->
             fst (__aenter__ net host per_type_byte_size fuel s0) = Raise e).
  { intros e s' He Hne. unfold __aenter__.
    rewrite (bind_ok _ _ s0 tt s1) by reflexivity.
    unfold except_AssertionError.
    rewrite (bind_raise _ _ _ _ _ He). destruct e; try reflexivity. contradiction. }
  destruct (net (0, 3)) as [resp|].
  - destruct (ok resp) eqn:Hok.
    + intros Hlen. eapply Henter; [|discriminate].
      unfold _read_header. apply bind_raise.
      unfold _read_first_header. rewrite (bind_ok _ _ _ _ _ Hread).
      apply bind_raise. unfold lift. rewrite unpack_wrong_size; [reflexivity|].
      change (calcsize _) with (@Ok Z (Z.of_nat 4)).
      intros E. apply ok_of_nat_inj in E. congruence.
    + erewrite aenter_malformed_header; [reflexivity|].
      unfold _read_header. apply bind_raise.
      unfold _read_first_header. apply bind_raise. exact Hread.
  - eapply Henter; [|discriminate].
    unfold _read_header. apply bind_raise.
    unfold _read_first_header. apply bind_raise. exact Hread.
Qed.

(** X3: a header decode succeeds only on a well-formed header: the first
    response is 4 bytes with a valid marker, which becomes the byte order;
    the version is 42 with a 4-byte second response, or 43 with a 12-byte
    second response whose pointer size is 8 and reserved field 0. The reader
    then holds the matching widths and the first-directory offset decoded
    from the second response, below 2^32 or 2^64; its directory list is
    untouched and exactly two requests were sent. *)
Theorem header_success_is_characterised s u s' :
  _read_header net host s = (Ok u, s') ->
  exists bo data1 data2,
    net (0, 3) = Some {| ok := true; body := data1 |} /\ length data1 = 4%nat /\
    marker_order (firstn 2 data1) = Some bo /\
    _byte_order_fmt s' = Some bo /\
    _ifds s' = _ifds s /\
    (decode bo (skipn 2 data1) = 42 /\
     widths_are 42 ptr_I n_H s' /\
     net (4, 7) = Some {| ok := true; body := data2 |} /\ length data2 = 4%nat /\
     _first_ifd_pointer s' = Some (decode bo data2) /\
     0 <= decode bo data2 < 2 ^ 32 /\
     requests s' = requests s ++ [(0, 3); (4, 7)]
     \/
     decode bo (skipn 2 data1) = 43 /\
     widths_are 43 ptr_Q n_Q s' /\
     net (4, 15) = Some {| ok := true; body := data2 |} /\ length data2 = 12%nat /\
     decode bo (firstn 2 data2) = 8 /\ decode bo (firstn 2 (skipn 2 data2)) = 0 /\
     _first_ifd_pointer s' = Some (decode bo (skipn 4 data2)) /\
     0 <= decode bo (skipn 4 data2) < 2 ^ 64 /\
     requests s' = requests s ++ [(0, 3); (4, 15)]).
Proof.
  intros H.
  destruct (read_header_ok_inv net host s u s' H)
    as (c & bo & data1 & data2 & Hc & Hcl & Hnet & Hlen & Hm & Hcase).
  exists bo, data1, data2.
  split; [exact Hnet|]. split; [exact Hlen|]. split; [exact Hm|].
  assert (Hreq : forall last,
             requests (header_state bo 0 ptr_I n_H 0 last c s)
             = requests s ++ [(0, 3); (4, last)]).
  { intros last. unfold requests. rewrite Hc. cbn. now rewrite <- app_assoc. }
  destruct Hcase as [(Hv & Hnet2 & Hlen2 & ->)|(Hv & Hnet2 & Hlen2 & H8 & H0 & ->)].
  - split; [reflexivity|]. split; [reflexivity|]. left.
    split; [exact Hv|]. split; [repeat split|]. split; [exact Hnet2|].
    split; [exact Hlen2|]. split; [reflexivity|]. split; [|exact (Hreq 7)].
    pose proof (decode_bound bo data2) as Hb. now rewrite Hlen2 in Hb.
  - split; [reflexivity|]. split; [reflexivity|]. right.
    split; [exact Hv|]. split; [repeat split|]. split; [exact Hnet2|].
    split; [exact Hlen2|]. split; [exact H8|]. split; [exact H0|].
    split; [reflexivity|]. split; [|exact (Hreq 15)].
    pose proof (decode_bound bo (skipn 4 data2)) as Hb.
    rewrite length_skipn, Hlen2 in Hb. exact Hb.
Qed.

Lemma read_ifd_count_request_refused p s c bo nf response :
  _client s = Some c -> closed c = false ->
  _byte_order_fmt s = Some bo -> _n_fmt s = Some nf ->
  net (p, p + Z.of_nat (count_size nf) - 1) = Some response ->
  ok response = false ->
  _read_ifd net host per_type_byte_size p s
  = (Raise AssertionError, after_request (p, p + Z.of_nat (count_size nf) - 1) c s).
Proof.
  intros Hc Hcl Hbo Hnf Hnet Hok. unfold _read_ifd.
  unfold bind at 1, call at 1. cbv beta. rewrite Hnf. cbn [getattr obind].
  unfold _format at 1. rewrite Hbo. cbn [getattr obind].
  rewrite calcsize_n_format. unfold bind at 1, lift at 1. cbn [obind].
  apply bind_raise. rewrite (read_eq net s c _ _ Hc Hcl), Hnet, Hok. reflexivity.
Qed.

(** X11: when the count request of a directory is answered with a status
    that is not OK (an offset past the end of the file, say), the walk stops
    with an assertion error, which the session reports as the invalid-format
    error; the directory list is as it was. *)
Theorem unreadable_directory_is_invalid_format p s c bo nf response fuel :
  _client s = Some c -> closed c = false ->
  _byte_order_fmt s = Some bo -> _n_fmt s = Some nf ->
  p > 0 ->
  net (p, p + Z.of_nat (count_size nf) - 1) = Some response ->
  ok response = false ->
  let s1 := after_request (p, p + Z.of_nat (count_size nf) - 1) c s in
  _read_idfs_loop net host per_type_byte_size (S fuel) p s = (Raise AssertionError, s1) /\
  except_AssertionError (_read_idfs_loop net host per_type_byte_size (S fuel) p)
    (raise (ValueError "Invalid file format")) s
  = (Raise (ValueError "Invalid file format"), s1) /\
  _ifds s1 = _ifds s.
Proof.
  intros Hc Hcl Hbo Hnf Hp Hnet Hok s1.
  assert (Hrun : _read_idfs_loop net host per_type_byte_size (S fuel) p s
                 = (Raise AssertionError, s1)).
  { cbn [_read_idfs_loop].
    assert ((p >? 0) = true) as -> by (apply Z.gtb_lt; lia).
    apply bind_raise.
    exact (read_ifd_count_request_refused p s c bo nf response Hc Hcl Hbo Hnf Hnet Hok). }
  split; [exact Hrun|]. split; [|reflexivity].
  now rewrite (except_AssertionError_caught _ _ _ _ Hrun).
Qed.

(** What is left of [_read_ifd] once the tag count is read: the format of
    the directory body is compiled, then fetched, then decoded. *)
Lemma read_ifd_after_count p s c bo pf nf n_data :
  _client s = Some c -> closed c = false ->
  _byte_order_fmt s = Some bo -> _pointer_fmt s = Some pf -> _n_fmt s = Some nf ->
  let cw := Z.of_nat (count_size nf) in
  let r1 : Range := (p, p + cw - 1) in
  net r1 = Some {| ok := true; body := n_data |} ->
  length n_data = count_size nf ->
  let n_tags := decode bo n_data in
  let ifd_format_str :=
    Format (Some bo) [(Z.to_nat (n_tags * Z.of_nat (record_size pf)), c_s);
                      (1%nat, pointer_code pf)] in
  _read_ifd net host per_type_byte_size p s
  = (ifd_size <- lift (calcsize ifd_format_str) ;;
     ifd_data <- _read net (p + cw) ifd_size ;;
     vals <- lift (unpack host ifd_format_str ifd_data) ;;
     match vals with
     | [VBytes tags_data; VInt pointer] =>
         tags <- call (fun self =>
                         _tags_from_data host per_type_byte_size self n_tags tags_data) ;;
         ret {| ifd.offset := p; ifd.n_tags := n_tags;
                ifd.next_ifd_pointer := pointer; ifd.tags := tags |}
     | _ => raise (ValueError "unpack")
     end) (after_request r1 c s).
Proof.
  intros Hc Hcl Hbo Hpf Hnf cw r1 Hnet1 Hlen1 n_tags ifd_format_str.
  unfold _read_ifd.
  unfold bind at 1, call at 1. cbv beta. rewrite Hnf. cbn [getattr obind].
  unfold _format at 1. rewrite Hbo. cbn [getattr obind].
  rewrite calcsize_n_format. unfold bind at 1, lift at 1. cbn [obind]. fold cw.
  rewrite (bind_ok _ _ s n_data (after_request r1 c s))
    by (rewrite (read_eq net s c _ _ Hc Hcl); fold r1; now rewrite Hnet1).
  unfold bind at 1, lift at 1. rewrite (unpack_n_format host bo nf n_data Hlen1).
  unfold bind at 1, call at 1, _tag_format, _format. cbv beta.
  cbn [after_request set_client _pointer_fmt _byte_order_fmt].
  rewrite Hpf, Hbo. cbn [getattr obind].
  rewrite calcsize_tag_format. unfold bind at 1, lift at 1. cbn [obind].
  unfold bind at 1, lift at 1. cbn [obind].
  unfold bind at 1, call at 1. cbv beta.
  cbn [after_request set_client _pointer_fmt _byte_order_fmt].
  rewrite Hpf, Hbo. cbn [getattr obind]. reflexivity.
Qed.

(** X12: a directory whose body cannot be read in full. With [wanted] the
    size that the declared tag count asks for: when [wanted] fits
    [Py_ssize_t] and the response to the second request has another length,
    the walk stops with [struct.error] after two requests; when [wanted]
    does not fit, [calcsize] raises [struct.error] before the second request
    is sent. In both cases the handler of [__aenter__] does not turn the
    error into the invalid-format error, and the directory list is as it
    was. *)
Theorem truncated_directory_raises_struct_error p s c bo pf nf n_data fuel :
  _client s = Some c -> closed c = false ->
  _byte_order_fmt s = Some bo -> _pointer_fmt s = Some pf -> _n_fmt s = Some nf ->
  p > 0 ->
  let cw := Z.of_nat (count_size nf) in
  let r1 : Range := (p, p + cw - 1) in
  net r1 = Some {| ok := true; body := n_data |} ->
  length n_data = count_size nf ->
  let wanted :=
    decode bo n_data * Z.of_nat (record_size pf) + Z.of_nat (pointer_size pf) in
  let r2 : Range := (p + cw, p + cw + wanted - 1) in
  let s1 := after_request r1 c s in
  let s2 := after_request r2 (record_request r1 c) s1 in
  let walk := _read_idfs_loop net host per_type_byte_size (S fuel) p in
  let handled :=
    except_AssertionError walk (raise (ValueError "Invalid file format")) in
  (wanted <= PY_SSIZE_T_MAX ->
   forall response,
     net r2 = Some response -> ok response = true ->
     Z.of_nat (length (body response)) <> wanted ->
     walk s = (Raise StructError, s2) /\
     handled s = (Raise StructError, s2) /\
     requests s2 = sent c ++ [r1; r2] /\
     _ifds s2 = _ifds s) /\
  (PY_SSIZE_T_MAX < wanted ->
   walk s = (Raise StructError, s1) /\
   handled s = (Raise StructError, s1) /\
   requests s1 = sent c ++ [r1] /\
   _ifds s1 = _ifds s).
Proof.
  intros Hc Hcl Hbo Hpf Hnf Hp cw r1 Hnet1 Hlen1 wanted r2 s1 s2 walk handled.
  pose proof (decode_bound bo n_data) as [Hn0 _].
  pose proof (read_ifd_after_count p s c bo pf nf n_data
                Hc Hcl Hbo Hpf Hnf Hnet1 Hlen1) as Hstep.
  cbv zeta in Hstep. fold cw r1 s1 in Hstep.
  set (k := Z.to_nat (decode bo n_data * Z.of_nat (record_size pf))) in *.
  assert (Hk : Z.of_nat (k + pointer_size pf) = wanted).
  { unfold k, wanted. rewrite Nat2Z.inj_add, Z2Nat.id; [reflexivity|].
    apply Z.mul_nonneg_nonneg; [exact Hn0 | apply Nat2Z.is_nonneg]. }
  assert (Hloop : forall s', _read_ifd net host per_type_byte_size p s
                             = (Raise StructError, s') ->
                             walk s = (Raise StructError, s') /\
                             handled s = (Raise StructError, s')).
  { intros s' Hr.
    assert (Hw : walk s = (Raise StructError, s')).
    { unfold walk. cbn [_read_idfs_loop].
      assert ((p >? 0) = true) as -> by (apply Z.gtb_lt; lia).
      now apply bind_raise. }
    split; [exact Hw|]. unfold handled, except_AssertionError. now rewrite Hw. }
  split.
  - intros Hfit response Hnet2 Hok Hlen2.
    assert (Hr : _read_ifd net host per_type_byte_size p s = (Raise StructError, s2)).
    { rewrite Hstep.
      rewrite calcsize_ifd_format by (rewrite Hk; exact Hfit).
      unfold bind at 1, lift at 1. cbn [obind]. rewrite Hk.
      rewrite (bind_ok _ _ _ (body response) s2).
      2:{ unfold s1. rewrite (read_eq net _ (record_request r1 c));
            [|reflexivity|exact Hcl].
          fold r2. now rewrite Hnet2, Hok. }
      apply bind_raise. unfold lift.
      rewrite unpack_wrong_size; [reflexivity|].
      rewrite calcsize_ifd_format by (rewrite Hk; exact Hfit).
      rewrite Hk. intros E. apply Ok_inj in E. congruence. }
    destruct (Hloop s2 Hr) as [Hw Hh].
    split; [exact Hw|]. split; [exact Hh|]. split; [|reflexivity].
    unfold requests, s2, s1.
    cbn [after_request set_client _client record_request sent].
    now rewrite <- app_assoc.
  - intros Hover.
    assert (Hr : _read_ifd net host per_type_byte_size p s = (Raise StructError, s1)).
    { rewrite Hstep. apply bind_raise. unfold lift.
      rewrite calcsize_ifd_format_too_long by (rewrite Hk; exact Hover).
      reflexivity. }
    destruct (Hloop s1 Hr) as [Hw Hh].
    split; [exact Hw|]. split; [exact Hh|]. split; reflexivity.
Qed.

(** X13: the walker has no guard against cycles: a directory whose
    next-directory offset is its own offset is read once per unit of fuel,
    for any amount of fuel, and appended to the directory list each
    time. *)
Theorem self_linked_directory_never_terminates bo pf nf p n_data ifd_data :
  let cw := Z.of_nat (count_size nf) in
  let n := Z.to_nat (decode bo n_data) in
  let tags_len := (n * record_size pf)%nat in
  p > 0 ->
  net (p, p + cw - 1) = Some {| ok := true; body := n_data |} ->
  length n_data = count_size nf ->
  net (p + cw, p + cw + Z.of_nat (tags_len + pointer_size pf) - 1)
    = Some {| ok := true; body := ifd_data |} ->
  length ifd_data = (tags_len + pointer_size pf)%nat ->
  decode bo (skipn tags_len ifd_data) = p ->
  forall fuel s,
    session_open s ->
    _byte_order_fmt s = Some bo -> _pointer_fmt s = Some pf -> _n_fmt s = Some nf ->
    fst (_read_idfs_loop net host per_type_byte_size fuel p s) = OutOfFuel /\
    length (_ifds (snd (_read_idfs_loop net host per_type_byte_size fuel p s)))
    = (length (_ifds s) + fuel)%nat.
Proof.
  intros cw n tags_len Hp Hnet1 Hlen1 Hnet2 Hlen2 Hnext.
  assert (Hgt : (p >? 0) = true) by (apply Z.gtb_lt; lia).
  induction fuel as [|fuel IH]; intros s (c & Hc & Hcl) Hbo Hpf Hnf;
    cbn [_read_idfs_loop]; rewrite Hgt.
  - cbn [fst snd]. split; [reflexivity | lia].
  - destruct (read_ifd_run net host per_type_byte_size p s c bo pf nf n_data ifd_data
                Hc Hcl Hbo Hpf Hnf Hnet1 Hlen1 Hnet2 Hlen2) as (tags & _ & Hrun).
    fold cw n tags_len in Hrun. rewrite Hnext in Hrun.
    rewrite (bind_ok _ _ _ _ _ Hrun).
    unfold bind at 1. cbn [assign ifd.next_ifd_pointer].
    match goal with
    | |- context [_read_idfs_loop _ _ _ fuel p ?s1] =>
        destruct (IH s1) as [IH1 IH2]; try assumption
    end.
    + eexists. split; [reflexivity | exact Hcl].
    + split; [exact IH1|]. refine (eq_trans IH2 _).
      cbn [append_ifd _ifds after_request set_client].
      rewrite length_app. cbn [length]. lia.
Qed.

(** X14: when [__aenter__] returns, the reader holds the first-directory
    offset of the header, not negative, and its directory list is the list
    it had before followed by the chain linked from that offset, one
    directory per unit of fuel spent; the session sent two requests for the
    header and two for each directory. *)
Theorem aenter_appends_the_chain fuel s0 u s' :
  __aenter__ net host per_type_byte_size fuel s0 = (Ok u, s') ->
  exists p ds,
    _first_ifd_pointer s' = Some p /\ 0 <= p /\
    linked p ds /\ (length ds <= fuel)%nat /\
    _ifds s' = _ifds s0 ++ ds /\
    length (requests s') = (2 + 2 * length ds)%nat.
Proof.
  intros H. destruct u.
  apply aenter_ok_inv in H as (s1 & Hh & Hw).
  unfold _read_idfs in Hw.
  apply bind_ok_inv in Hw as (p & s2 & E & Hw). apply call_ok_inv in E as [E ->].
  destruct (_first_ifd_pointer s1) as [p1|] eqn:Hp1; [|discriminate].
  injection E as ->.
  destruct (run_chain net host per_type_byte_size fuel s1 p s' Hw) as (ds & Hlen & Hch).
  destruct (chain_linked net host per_type_byte_size ds s1 p s' Hch) as [Hl Hifds].
  pose proof (chain_request_count net host per_type_byte_size
                ds s1 p s' Hch) as Hreq.
  exists p, ds.
  assert (Hp' : _first_ifd_pointer s' = Some p).
  { apply (preserves_read_idfs_loop net host per_type_byte_size
             (first_ifd_pointer_is (Some p)) fuel) with (s := s1) (r := Ok tt) (p := p);
      try assumption.
    - intros ? ? ? Hx _ _. exact Hx.
    - intros ? ? Hx. exact Hx. }
  destruct (read_header_ok_inv net host _ tt s1 Hh)
    as (c & bo & data1 & data2 & Hc & _ & _ & _ & _ & Hcase).
  cbn in Hc. injection Hc as <-.
  assert (Hs1 : 0 <= p /\ _ifds s1 = _ifds s0 /\ length (requests s1) = 2%nat).
  { destruct Hcase as [(_ & _ & _ & ->)|(_ & _ & _ & _ & _ & ->)];
      cbn in Hp1; injection Hp1 as <-; (split; [apply decode_bound|]);
      split; reflexivity. }
  destruct Hs1 as (Hp0 & Hi1 & Hr1).
  split; [exact Hp'|]. split; [exact Hp0|]. split; [exact Hl|]. split; [exact Hlen|].
  split; [now rewrite Hifds, Hi1|]. now rewrite Hreq, Hr1.
Qed.

Lemma ifds_extend_stable_request l : stable_request (ifds_extend l).
Proof. intros s c r H _ _. exact H. Qed.

Lemma ifds_extend_stable_append l d : stable_under (ifds_extend l) (append_ifd d).
Proof.
  intros s [ds H]. exists (ds ++ [d]). cbn [append_ifd _ifds].
  now rewrite H, app_assoc.
Qed.

(** A walk that decoded [ds] and fails at the next directory: the failure
    is the outcome of the walk, and [ds] were appended before it. *)
Lemma walked_then_failure :
  forall ds s p s2 q e s3 fuel,
    walked net host per_type_byte_size s p ds s2 q ->
    q > 0 ->
    _read_ifd net host per_type_byte_size q s2 = (Raise e, s3) ->
    (length ds < fuel)%nat ->
    _read_idfs_loop net host per_type_byte_size fuel p s = (Raise e, s3) /\
    _ifds s3 = _ifds s ++ ds.
Proof.
  induction ds as [|d rest IH]; intros s p s2 q e s3 fuel; cbn [walked].
  - intros [-> ->] Hq Hr Hfuel. destruct fuel as [|fuel]; [cbn in Hfuel; lia|].
    cbn [_read_idfs_loop].
    assert ((p >? 0) = true) as -> by (apply Z.gtb_lt; lia).
    split; [now apply bind_raise|].
    rewrite (read_ifd_keeps_ifds net host per_type_byte_size p s _ s3 Hr).
    now rewrite app_nil_r.
  - intros (Hp & Hd & Hrest) Hq Hr Hfuel. cbn [length] in Hfuel.
    destruct fuel as [|fuel]; [lia|]. cbn [_read_idfs_loop].
    assert ((p >? 0) = true) as -> by (apply Z.gtb_lt; lia).
    destruct (_read_ifd net host per_type_byte_size p s) as [r0 s1] eqn:E.
    cbn [fst snd] in Hd, Hrest. subst r0.
    unfold bind at 1. rewrite E. unfold bind at 1. cbn [assign].
    assert (Hfuel' : (length rest < fuel)%nat) by lia.
    destruct (IH _ _ _ _ _ _ fuel Hrest Hq Hr Hfuel') as [Hrun Hifds].
    split; [exact Hrun|]. rewrite Hifds. cbn [append_ifd _ifds].
    rewrite (read_ifd_keeps_ifds net host per_type_byte_size p s _ s1 E), <- app_assoc.
    reflexivity.
Qed.

Lemma read_header_keeps_ifds s r s' :
  _read_header net host s = (r, s') -> _ifds s' = _ifds s.
Proof.
  intros H.
  apply (preserves_read_header net host (ifds_are (_ifds s)))
    with (s := s) (r := r); try (intros ? ? Hx; exact Hx);
    [intros ? ? ? Hx _ _; exact Hx | reflexivity | exact H].
Qed.

(** X15: [__aenter__] only appends to the directory list of the reader,
    whatever its outcome: the directories that were there stay first and in
    order, and entering a reader again does not clear the list. When the
    header decodes, the walk decodes the directories [ds] and the decode of
    the directory after them fails, [__aenter__] raises that failure (an
    assertion error as the invalid-format error) and the list is the
    earlier list followed by exactly [ds]. *)
Theorem aenter_keeps_earlier_directories fuel s0 r s' :
  __aenter__ net host per_type_byte_size fuel s0 = (r, s') ->
  (exists ds, _ifds s' = _ifds s0 ++ ds) /\
  (forall s1 p ds s2 q e s3,
      _read_header net host (set_client new_ClientSession s0) = (Ok tt, s1) ->
      _first_ifd_pointer s1 = Some p ->
      walked net host per_type_byte_size s1 p ds s2 q ->
      (length ds < fuel)%nat ->
      q > 0 ->
      _read_ifd net host per_type_byte_size q s2 = (Raise e, s3) ->
      r = Raise (reported e) /\ s' = s3 /\ _ifds s' = _ifds s0 ++ ds).
Proof.
  unfold __aenter__.
  rewrite (bind_ok _ _ s0 tt (set_client new_ClientSession s0)) by reflexivity.
  intros H. split.
  - apply (preserves_except (ifds_extend (_ifds s0))
             (_read_header net host ;;; _read_idfs net host per_type_byte_size fuel)
             (raise (ValueError "Invalid file format")))
      with (s := set_client new_ClientSession s0) (r := r).
    + apply preserves_bind; [|intros _].
      * apply preserves_read_header; try (intros ? ? Hx; exact Hx).
        apply ifds_extend_stable_request.
      * apply preserves_read_idfs;
          [apply ifds_extend_stable_request | intro; apply ifds_extend_stable_append].
    + apply preserves_raise.
    + exists []. cbn. now rewrite app_nil_r.
    + exact H.
  - intros s1 p ds s2 q e s3 Hh Hp Hw Hfuel Hq Hr.
    destruct (walked_then_failure ds s1 p s2 q e s3 fuel Hw Hq Hr Hfuel)
      as [Hrun Hifds].
    assert (Hbody : (_read_header net host ;;;
                     _read_idfs net host per_type_byte_size fuel)
                      (set_client new_ClientSession s0) = (Raise e, s3)).
    { rewrite (bind_ok _ _ _ _ _ Hh). unfold _read_idfs.
      unfold bind at 1, call at 1. rewrite Hp. cbn [getattr]. exact Hrun. }
    unfold except_AssertionError in H. rewrite Hbody in H.
    assert (Hi : _ifds s3 = _ifds s0 ++ ds).
    { rewrite Hifds. now rewrite (read_header_keeps_ifds _ _ _ Hh). }
    destruct e; cbn [reported]; injection H as <- <-; repeat split; exact Hi.
Qed.

(** X9: packing then decoding a tag record. Four fields that fit their
    widths, packed with [struct.pack] in the tag format of the session, give
    a record of the variant's size, and the tag decoder gives back the code,
    the type and the count; the fourth field comes back as the pointer when
    the value is larger than a pointer, and otherwise as the inline value,
    packed in the byte order of the host and cut to the value size. *)
Theorem packed_tag_record_decodes (self : COGReader) (bo : ByteOrder) (pf : PointerFmt)
    (code type n_values slot : Z) :
  _byte_order_fmt self = Some bo ->
  _pointer_fmt self = Some pf ->
  0 <= code < 2 ^ 16 -> 0 <= type < 2 ^ 16 ->
  0 <= n_values < 2 ^ (8 * Z.of_nat (pointer_size pf)) ->
  0 <= slot < 2 ^ (8 * Z.of_nat (pointer_size pf)) ->
  exists td,
    (fmt <-- _tag_format self ;;
     pack host fmt [VInt code; VInt type; VInt n_values; VInt slot]) = Ok td /\
    length td = record_size pf /\
    _tag_from_tag_data host per_type_byte_size self td
    = match per_type_byte_size type with
      | None => Raise (ValueError "unknown tag type")
      | Some sz =>
          if Z.of_N sz * n_values <=? Z.of_nat (pointer_size pf)
          then Ok {| ifd.code := code; ifd.type := type; ifd.n_values := n_values;
                     ifd.pointer := None;
                     ifd.data := Some (firstn (Z.to_nat (Z.of_N sz * n_values))
                                         (encode host (pointer_size pf) slot)) |}
          else Ok {| ifd.code := code; ifd.type := type; ifd.n_values := n_values;
                     ifd.pointer := Some slot; ifd.data := None |}
      end.
Proof.
  intros Hbo Hpf Hc Ht Hn Hs.
  exists (encode bo 2 code ++ encode bo 2 type
          ++ encode bo (pointer_size pf) n_values ++ encode bo (pointer_size pf) slot).
  assert (Hrc : in_range c_H code = true)
    by (unfold in_range; cbn [code_size]; apply andb_true_intro; split;
        [apply Z.leb_le | apply Z.ltb_lt]; lia).
  assert (Hrt : in_range c_H type = true)
    by (unfold in_range; cbn [code_size]; apply andb_true_intro; split;
        [apply Z.leb_le | apply Z.ltb_lt]; lia).
  assert (Hrn : in_range (pointer_code pf) n_values = true)
    by (unfold in_range; apply andb_true_intro; split;
        [apply Z.leb_le | apply Z.ltb_lt]; apply Hn).
  assert (Hrs : in_range (pointer_code pf) slot = true)
    by (unfold in_range; apply andb_true_intro; split;
        [apply Z.leb_le | apply Z.ltb_lt]; apply Hs).
  assert (Hlen : length (encode bo 2 code ++ encode bo 2 type
                         ++ encode bo (pointer_size pf) n_values
                         ++ encode bo (pointer_size pf) slot) = record_size pf)
    by (rewrite !length_app, !length_encode; unfold record_size; lia).
  split; [|split; [exact Hlen|]].
  - unfold _tag_format, _format. rewrite Hpf, Hbo. cbn [getattr obind].
    unfold pack. cbn [order items byte_order pack_from padding pack_ints code_size
                      Nat.add Nat.mul].
    rewrite Hrc. cbn [obind fst snd]. rewrite Hrt. cbn [obind fst snd].
    rewrite Hrn. cbn [obind fst snd]. rewrite Hrs. cbn [obind fst snd repeat app].
    unfold pointer_size.
    destruct pf; cbn [pointer_code code_size obind]; rewrite !app_nil_r; reflexivity.
  - rewrite (tag_from_tag_data_eq host per_type_byte_size self bo pf _ Hbo Hpf Hlen).
    set (rest3 := encode bo (pointer_size pf) slot).
    set (rest2 := encode bo (pointer_size pf) n_values ++ rest3).
    set (rest1 := encode bo 2 type ++ rest2).
    assert (Hsk2 : skipn 2 (encode bo 2 code ++ rest1) = rest1)
      by (apply skipn_length_app, length_encode).
    assert (Hsk4 : skipn 4 (encode bo 2 code ++ rest1) = rest2).
    { change 4%nat with (2 + 2)%nat. rewrite <- skipn_skipn, Hsk2.
      apply skipn_length_app, length_encode. }
    assert (Hfc : field_code bo (encode bo 2 code ++ rest1) = code).
    { unfold field_code. rewrite firstn_length_app by apply length_encode.
      now apply decode_encode. }
    assert (Hft : field_type bo (encode bo 2 code ++ rest1) = type).
    { unfold field_type. rewrite Hsk2. unfold rest1.
      rewrite firstn_length_app by apply length_encode. now apply decode_encode. }
    assert (Hfn : field_count bo pf (encode bo 2 code ++ rest1) = n_values).
    { unfold field_count. rewrite Hsk4. unfold rest2.
      rewrite firstn_length_app by apply length_encode. now apply decode_encode. }
    assert (Hvs : value_slot pf (encode bo 2 code ++ rest1) = rest3).
    { unfold value_slot. rewrite (Nat.add_comm 4), <- skipn_skipn, Hsk4. unfold rest2.
      rewrite skipn_length_app by apply length_encode.
      rewrite <- (app_nil_r rest3) at 1. apply firstn_length_app, length_encode. }
    unfold raw_tag. rewrite Hfc, Hft, Hfn, Hvs. unfold rest3.
    rewrite (decode_encode bo _ slot Hs).
    reflexivity.
Qed.

End Session.

(** ** Scenarios of the further properties *)

Lemma version_is_checked_after_it_is_stored_witness :
  _version (snd (_read_first_header (range_server bad_version_file) Little fresh_reader))
  = Some 7 /\
  fst (_read_header (range_server bad_version_file) Little fresh_reader)
  = Raise AssertionError.
Proof.
  destruct (version_is_checked_after_it_is_stored (range_server bad_version_file) Little
              fresh_reader new_ClientSession (octets [73; 73; 7; 0]) Little
              eq_refl eq_refl eq_refl eq_refl eq_refl) as (Hv & _ & Hbad).
  split; [exact Hv|].
  destruct Hbad as (_ & Hh & _); [discriminate | discriminate | exact Hh].
Defined.

(** An empty file: the first request is answered with an error status. *)
Lemma first_request_failures_witness :
  fst (__aenter__ (range_server []) Little sample_types 2 (__init__ "cog.tif"))
  = Raise (ValueError "Invalid file format").
Proof.
  exact (first_request_failures (range_server []) Little sample_types 2
           (__init__ "cog.tif")).
Defined.

Lemma header_success_is_characterised_witness :
  exists bo data1 data2,
    range_server two_directories (0, 3) = Some {| ok := true; body := data1 |} /\
    marker_order (firstn 2 data1) = Some bo /\
    range_server two_directories (4, 7) = Some {| ok := true; body := data2 |} /\
    _first_ifd_pointer (after_header two_directories Little) = Some (decode bo data2).
Proof.
  destruct (header_success_is_characterised (range_server two_directories) Little
              fresh_reader tt (after_header two_directories Little))
    as (bo & data1 & data2 & Hn1 & _ & Hm & _ & _ & Hcase).
  - vm_compute; reflexivity.
  - exists bo, data1, data2.
    destruct Hcase as [(_ & _ & Hn2 & _ & Hp & _)|(_ & (Hv & _) & _)].
    + repeat split; assumption.
    + vm_compute in Hv. discriminate Hv.
Defined.

Lemma classic_header_is_byte_order_symmetric_witness :
  _first_ifd_pointer
    (snd (_read_header (range_server two_directories) Little fresh_reader))
  = _first_ifd_pointer
      (snd (_read_header (range_server big_endian_header) Little fresh_reader)).
Proof.
  destruct (classic_header_is_byte_order_symmetric Little
              (range_server two_directories) (range_server big_endian_header)
              fresh_reader new_ClientSession (octets [42; 0]) (octets [8; 0; 0; 0])
              eq_refl eq_refl eq_refl eq_refl eq_refl eq_refl eq_refl eq_refl eq_refl)
    as [Hle Hbe].
  rewrite Hle, Hbe. reflexivity.
Defined.

Lemma extended_header_is_byte_order_symmetric_witness :
  fst (_read_header (range_server little_endian_bigtiff_header) Little fresh_reader)
  = fst (_read_header (range_server bigtiff_file) Little fresh_reader).
Proof.
  destruct (extended_header_is_byte_order_symmetric Little
              (range_server little_endian_bigtiff_header) (range_server bigtiff_file)
              fresh_reader new_ClientSession
              (octets [43; 0]) (octets [8; 0]) (octets [0; 0])
              (octets [16; 0; 0; 0; 0; 0; 0; 0])
              eq_refl eq_refl eq_refl eq_refl eq_refl eq_refl eq_refl
              eq_refl eq_refl eq_refl eq_refl) as (H & _ & _).
  exact H.
Defined.


Lemma directory_costs_two_requests_witness :
  requests (snd (_read_ifd (range_server two_directories) Little sample_types 8
                   (classic_reader Little)))
  = [(8, 9); (10, 25)].
Proof.
  destruct (directory_costs_two_requests (range_server two_directories) Little
              sample_types 8 (classic_reader Little) directory_A
              (snd (_read_ifd (range_server two_directories) Little sample_types 8
                      (classic_reader Little))))
    as (pf & nf & Hpf & Hnf & Hr).
  - vm_compute; reflexivity.
  - vm_compute in Hpf, Hnf. injection Hpf as <-. injection Hnf as <-.
    rewrite Hr. reflexivity.
Defined.

Lemma directory_fields_are_bounded_witness :
  Z.of_nat (length (ifd.tags directory_A)) <= ifd.n_tags directory_A.
Proof.
  destruct (directory_fields_are_bounded (range_server two_directories) Little
              sample_types 8 (classic_reader Little) directory_A
              (snd (_read_ifd (range_server two_directories) Little sample_types 8
                      (classic_reader Little))))
    as (pf & nf & _ & _ & _ & _ & H).
  - vm_compute; reflexivity.
  - exact H.
Defined.

Lemma tag_fields_are_bounded_witness :
  0 <= ifd.code image_width_tag < 2 ^ 16 /\ 0 <= ifd.type image_width_tag < 2 ^ 16.
Proof.
  destruct (tag_fields_are_bounded Little sample_types (classic_reader Little)
              little_endian_record image_width_tag)
    as (pf & _ & Hc & Ht & _).
  - vm_compute; reflexivity.
  - split; assumption.
Defined.

Lemma packed_tag_record_decodes_witness :
  exists td,
    pack Little (Format (Some Little) [(1%nat, c_H); (1%nat, c_H); (2%nat, c_I)])
      [VInt 256; VInt 3; VInt 1; VInt 512] = Ok td /\
    _tag_from_tag_data Little sample_types (classic_reader Little) td
    = Ok {| ifd.code := 256; ifd.type := 3; ifd.n_values := 1; ifd.pointer := None;
            ifd.data := Some (firstn 2 (encode Little 4 512)) |}.
Proof.
  destruct (packed_tag_record_decodes Little sample_types (classic_reader Little)
              Little ptr_I 256 3 1 512 eq_refl eq_refl)
    as (td & Hpack & _ & Hdec); try (cbn; lia).
  exists td. split; [exact Hpack | exact Hdec].
Defined.

Lemma inline_value_raw_when_orders_agree_witness :
  exists size,
    ifd.data_size sample_types image_width_tag = Ok size /\
    octets [0; 2] = firstn (Z.to_nat size) (value_slot ptr_I little_endian_record).
Proof.
  apply (inline_value_raw_when_orders_agree Little sample_types (classic_reader Little)
           ptr_I little_endian_record image_width_tag (octets [0; 2]));
    vm_compute; reflexivity.
Defined.

Lemma unreadable_directory_is_invalid_format_witness :
  except_AssertionError
    (_read_idfs_loop (range_server dangling_first_file) Little sample_types 1 64)
    (raise (ValueError "Invalid file format")) (classic_reader Little)
  = (Raise (ValueError "Invalid file format"),
     after_request (64, 65) new_ClientSession (classic_reader Little)).
Proof.
  destruct (unreadable_directory_is_invalid_format (range_server dangling_first_file)
              Little sample_types 64 (classic_reader Little) new_ClientSession Little n_H
              {| ok := false; body := [] |} 0
              eq_refl eq_refl eq_refl eq_refl eq_refl eq_refl eq_refl) as (_ & H & _).
  exact H.
Defined.

(** A directory cut short: two requests, then [struct.error]. A directory
    that declares 2^60 tags in an extended file: [struct.error] after the
    count request alone. *)
Lemma truncated_directory_raises_struct_error_witness :
  (fst (_read_idfs_loop (range_server truncated_directory_file) Little sample_types 1 8
          (classic_reader Little)) = Raise StructError /\
   requests (snd (_read_idfs_loop (range_server truncated_directory_file) Little
                    sample_types 1 8 (classic_reader Little)))
   = [(8, 9); (10, 25)]) /\
  (fst (_read_idfs_loop (range_server huge_count_file) Little sample_types 1 16
          (bigtiff_reader Little)) = Raise StructError /\
   requests (snd (_read_idfs_loop (range_server huge_count_file) Little
                    sample_types 1 16 (bigtiff_reader Little)))
   = [(16, 23)]).
Proof.
  split.
  - destruct (truncated_directory_raises_struct_error
                (range_server truncated_directory_file) Little sample_types 8
                (classic_reader Little) new_ClientSession Little ptr_I n_H
                (octets [1; 0]) 0
                eq_refl eq_refl eq_refl eq_refl eq_refl eq_refl eq_refl eq_refl)
      as (Hin & _).
    destruct (Hin ltac:(vm_compute; discriminate)
                {| ok := true; body := octets [0; 1; 3; 0] |} eq_refl eq_refl
                ltac:(vm_compute; discriminate))
      as (Hw & _ & Hreq & _).
    rewrite Hw. split; [reflexivity | exact Hreq].
  - destruct (truncated_directory_raises_struct_error
                (range_server huge_count_file) Little sample_types 16
                (bigtiff_reader Little) new_ClientSession Little ptr_Q n_Q
                (octets [0; 0; 0; 0; 0; 0; 0; 16]) 0
                eq_refl eq_refl eq_refl eq_refl eq_refl eq_refl eq_refl eq_refl)
      as (_ & Hover).
    destruct (Hover ltac:(vm_compute; reflexivity)) as (Hw & _ & Hreq & _).
    rewrite Hw. split; [reflexivity | exact Hreq].
Defined.

Lemma self_linked_directory_never_terminates_witness :
  fst (_read_idfs_loop (range_server self_linked_file) Little sample_types 7 8
         (classic_reader Little)) = OutOfFuel /\
  length (_ifds (snd (_read_idfs_loop (range_server self_linked_file) Little
                        sample_types 7 8 (classic_reader Little)))) = 7%nat.
Proof.
  apply (self_linked_directory_never_terminates (range_server self_linked_file) Little
           sample_types Little ptr_I n_H 8 (octets [0; 0]) (octets [8; 0; 0; 0]));
    try reflexivity.
  exists new_ClientSession. split; reflexivity.
Defined.

Lemma aenter_appends_the_chain_witness :
  exists p ds,
    _first_ifd_pointer (after_walk two_directories Little 2) = Some p /\
    linked p ds /\
    _ifds (after_walk two_directories Little 2) = ds /\
    length (requests (after_walk two_directories Little 2)) = (2 + 2 * length ds)%nat.
Proof.
  destruct (aenter_appends_the_chain (range_server two_directories) Little sample_types
              2 (__init__ "cog.tif") tt (after_walk two_directories Little 2))
    as (p & ds & Hp & _ & Hl & _ & Hi & Hr).
  - vm_compute; reflexivity.
  - exists p, ds. repeat split; assumption.
Defined.

(** A reader that holds the two directories of an earlier session enters a
    file whose second directory is past the end: the session fails, and the
    list is the two earlier directories followed by the one that was
    decoded before the failure. *)
Lemma aenter_keeps_earlier_directories_witness :
  fst (__aenter__ (range_server dangling_next_file) Little sample_types 2
         (after_walk two_directories Little 2))
  = Raise (ValueError "Invalid file format") /\
  _ifds (snd (__aenter__ (range_server dangling_next_file) Little sample_types 2
                (after_walk two_directories Little 2)))
  = [directory_A; directory_B] ++ [directory_dangling].
Proof.
  destruct (aenter_keeps_earlier_directories (range_server dangling_next_file) Little
              sample_types 2 (after_walk two_directories Little 2)
              (fst (__aenter__ (range_server dangling_next_file) Little sample_types 2
                      (after_walk two_directories Little 2)))
              (snd (__aenter__ (range_server dangling_next_file) Little sample_types 2
                      (after_walk two_directories Little 2))))
    as (_ & H).
  - vm_compute; reflexivity.
  - destruct (H (snd (_read_header (range_server dangling_next_file) Little
                        (set_client new_ClientSession
                           (after_walk two_directories Little 2))))
                8 [directory_dangling]
                (append_ifd directory_dangling
                   (snd (_read_ifd (range_server dangling_next_file) Little sample_types 8
                           (snd (_read_header (range_server dangling_next_file) Little
                                   (set_client new_ClientSession
                                      (after_walk two_directories Little 2)))))))
                64 AssertionError
                (snd (_read_ifd (range_server dangling_next_file) Little sample_types 64
                        (append_ifd directory_dangling
                           (snd (_read_ifd (range_server dangling_next_file) Little
                                   sample_types 8
                                   (snd (_read_header (range_server dangling_next_file)
                                           Little
                                           (set_client new_ClientSession
                                              (after_walk two_directories Little 2)))))))))
             ) as (Hr & _ & Hi).
    + vm_compute; reflexivity.
    + vm_compute; reflexivity.
    + cbn [walked]. split; [reflexivity|]. split; [vm_compute; reflexivity|].
      split; reflexivity.
    + cbn; lia.
    + reflexivity.
    + vm_compute; reflexivity.
    + split; [exact Hr | exact Hi].
Defined.

Lemma async_with_success_closes_witness :
  exists c,
    _client (snd (async_with (range_server two_directories) Little sample_types 2
                    "cog.tif" (ret tt))) = Some c /\
    closed c = true.
Proof.
  apply (async_with_success_closes (range_server two_directories) Little sample_types
           2 "cog.tif" (ret tt) tt (after_walk two_directories Little 2)).
  - vm_compute; reflexivity.
  - intros s r s' Hs [= _ <-]. exact Hs.
Defined.
